(** * quantrocket-client: the db client library and the realtime CLI

    A shallow embedding of [quantrocket/db.py] and of the argument parsers
    declared in [quantrocket/cli/subcommands/realtime.py].

    Python values that flow through the client are modelled by [PyVal],
    dictionaries used as request payloads by [gmap string PyVal], and the
    effects of a call (HTTP requests through houston, the getpass prompt,
    exceptions) by the state-and-exception monad [Py] over a [World].

    Two modules the client depends on are not among the sources,
    [quantrocket/houston.py] and [quantrocket/realtime.py]; what the
    properties need of them is modelled from the specification, in the
    modules [houston] and [realtime], each definition saying so. *)

From Stdlib Require Import ZArith Ascii String.
From stdpp Require Import gmap strings list fin_maps.

Set Warnings "-register-all".

Local Open Scope Z_scope.

(** ** Python values *)

Inductive PyVal : Type :=
| PNone
| PBool (b : bool)
| PInt (z : Z)
| PStr (s : string)
| PList (l : list PyVal).

(** Python truth value testing: [None], [False], [0], the empty string and
    the empty list are falsy. *)
Definition truthy (v : PyVal) : bool :=
  match v with
  | PNone => false
  | PBool b => b
  | PInt z => negb (z =? 0)
  | PStr s => negb (String.eqb s EmptyString)
  | PList l => match l with [] => false | _ :: _ => true end
  end.

(** The double quote character, which string literals here never spell. *)
Definition dquote : ascii := "034"%char.
Definition backslash : ascii := "092"%char.

(** ** Decoded JSON documents *)

Inductive JSON : Type :=
| JNull
| JBool (b : bool)
| JNum (z : Z)
| JStr (s : string)
| JArr (l : list JSON)
| JObj (kvs : list (string * JSON)).

(** [d.get(k)] on a decoded object: as in a Python dict built by the
    decoder, the last binding of a repeated key wins. *)
Fixpoint dict_get (k : string) (kvs : list (string * JSON)) : option JSON :=
  match kvs with
  | [] => None
  | (k', v) :: rest =>
      match dict_get k rest with
      | Some v' => Some v'
      | None => if String.eqb k k' then Some v else None
      end
  end.

Module Json.

(** A decoder for the JSON fragment the client exchanges with the service:
    [null], [true], [false], integers, strings with the two-character
    escapes, arrays and objects, with insignificant whitespace.  It stands
    for [Response.json()] of the requests library; fractional numbers and
    unicode escapes are outside the fragment. *)

Definition is_ws (c : ascii) : bool :=
  match c with
  | " "%char | "009"%char | "010"%char | "013"%char => true
  | _ => false
  end.

Fixpoint skip_ws (s : string) : string :=
  match s with
  | String c rest => if is_ws c then skip_ws rest else s
  | EmptyString => s
  end.

Definition digit_of (c : ascii) : option Z :=
  let n := Z.of_nat (nat_of_ascii c) in
  if (48 <=? n) && (n <=? 57) then Some (n - 48) else None.

(** Digits after the first one of a number. *)
Fixpoint more_digits (acc : Z) (s : string) : Z * string :=
  match s with
  | String c rest =>
      match digit_of c with
      | Some d => more_digits (acc * 10 + d) rest
      | None => (acc, s)
      end
  | EmptyString => (acc, s)
  end.

(** An integer without sign: [0], or a non-zero digit followed by digits. *)
Definition natural (s : string) : option (Z * string) :=
  match s with
  | String c rest =>
      match digit_of c with
      | Some 0 => Some (0, rest)
      | Some d => Some (more_digits d rest)
      | None => None
      end
  | EmptyString => None
  end.

Definition unescape (c : ascii) : option ascii :=
  match c with
  | "b"%char => Some "008"%char
  | "f"%char => Some "012"%char
  | "n"%char => Some "010"%char
  | "r"%char => Some "013"%char
  | "t"%char => Some "009"%char
  | "/"%char => Some "/"%char
  | _ => if Ascii.eqb c dquote then Some dquote
         else if Ascii.eqb c backslash then Some backslash
         else None
  end.

(** The characters of a string literal, after its opening quote. *)
Fixpoint chars (s : string) : option (string * string) :=
  match s with
  | EmptyString => None
  | String c rest =>
      if Ascii.eqb c dquote then Some (EmptyString, rest)
      else if Ascii.eqb c backslash then
        match rest with
        | String e rest' =>
            match unescape e, chars rest' with
            | Some c', Some (str, tail) => Some (String c' str, tail)
            | _, _ => None
            end
        | EmptyString => None
        end
      else if (Z.of_nat (nat_of_ascii c) <? 32) then None
      else
        match chars rest with
        | Some (str, tail) => Some (String c str, tail)
        | None => None
        end
  end.

Definition literal (word : string) (v : JSON) (s : string) : option (JSON * string) :=
  if String.prefix word s
  then Some (v, String.substring (String.length word)
                                 (String.length s - String.length word) s)
  else None.

(** [value], [elements] and [members] consume at least one character per
    unit of fuel, so a fuel above the length of the text is never
    exhausted. *)
Fixpoint value (fuel : nat) (s : string) : option (JSON * string) :=
  match fuel with
  | O => None
  | S fuel' =>
      match skip_ws s with
      | EmptyString => None
      | String c rest =>
          if Ascii.eqb c dquote then
            match chars rest with
            | Some (str, tail) => Some (JStr str, tail)
            | None => None
            end
          else if Ascii.eqb c "["%char then
            match skip_ws rest with
            | String "]"%char tail => Some (JArr [], tail)
            | _ =>
                match elements fuel' rest with
                | Some (l, tail) => Some (JArr l, tail)
                | None => None
                end
            end
          else if Ascii.eqb c "{"%char then
            match skip_ws rest with
            | String "}"%char tail => Some (JObj [], tail)
            | _ =>
                match members fuel' rest with
                | Some (kvs, tail) => Some (JObj kvs, tail)
                | None => None
                end
            end
          else if Ascii.eqb c "-"%char then
            match natural rest with
            | Some (n, tail) => Some (JNum (- n), tail)
            | None => None
            end
          else if Ascii.eqb c "n"%char then literal "null" JNull (String c rest)
          else if Ascii.eqb c "t"%char then literal "true" (JBool true) (String c rest)
          else if Ascii.eqb c "f"%char then literal "false" (JBool false) (String c rest)
          else
            match natural (String c rest) with
            | Some (n, tail) => Some (JNum n, tail)
            | None => None
            end
      end
  end
with elements (fuel : nat) (s : string) : option (list JSON * string) :=
  match fuel with
  | O => None
  | S fuel' =>
      match value fuel' s with
      | Some (v, tail) =>
          match skip_ws tail with
          | String "]"%char tail' => Some ([v], tail')
          | String ","%char tail' =>
              match elements fuel' tail' with
              | Some (l, tail'') => Some (v :: l, tail'')
              | None => None
              end
          | _ => None
          end
      | None => None
      end
  end
with members (fuel : nat) (s : string) : option (list (string * JSON) * string) :=
  match fuel with
  | O => None
  | S fuel' =>
      match skip_ws s with
      | String c rest =>
          if Ascii.eqb c dquote then
            match chars rest with
            | Some (k, tail) =>
                match skip_ws tail with
                | String ":"%char tail' =>
                    match value fuel' tail' with
                    | Some (v, tail'') =>
                        match skip_ws tail'' with
                        | String "}"%char rest' => Some ([(k, v)], rest')
                        | String ","%char rest' =>
                            match members fuel' rest' with
                            | Some (kvs, rest'') => Some ((k, v) :: kvs, rest'')
                            | None => None
                            end
                        | _ => None
                        end
                    | None => None
                    end
                | _ => None
                end
            | None => None
            end
          else None
      | EmptyString => None
      end
  end.

(** [json.loads]: one value, then nothing but whitespace. *)
Definition loads (s : string) : option JSON :=
  match value (S (String.length s)) s with
  | Some (v, tail) =>
      match skip_ws tail with
      | EmptyString => Some v
      | _ => None
      end
  | None => None
  end.

End Json.

(** ** The world a call runs in, and the monad of Python calls *)

Inductive Method : Type := GET | PUT | POST | DELETE.

(** A request as houston receives it: [params=] is the query string
    dictionary, [data=] the form body; [None] when the keyword is not
    passed. *)
Record Request : Type := mkRequest {
  method : Method;
  path : string;
  params : option (gmap string PyVal);
  data : option (gmap string PyVal)
}.

(** [status_code] and [content] of a requests Response. *)
Record Response : Type := mkResponse {
  status_code : Z;
  content : string
}.

Inductive Event : Type :=
| Sent (r : Request)
| Prompted (prompt : string).

(** The remote service (which may not answer), the lines still to be typed
    at the terminal, and the events so far, oldest first. *)
Record World : Type := mkWorld {
  server : Request -> option Response;
  keyboard : list string;
  trace : list Event
}.

Inductive Exn : Type :=
| ValidationError (msg : string)
| RemoteServiceError (status : Z) (message : JSON)
| JSONDecodeError
| ConnectionError
| EOFError
| SystemExit (status : Z)
| NotModelled.

Inductive Outcome (A : Type) : Type :=
| Return (a : A)
| Raise (e : Exn).
Arguments Return {A} a.
Arguments Raise {A} e.

Definition Py (A : Type) : Type := World -> Outcome A * World.

Definition ret {A} (a : A) : Py A := fun w => (Return a, w).

Definition raise {A} (e : Exn) : Py A := fun w => (Raise e, w).

Definition bind {A B} (m : Py A) (k : A -> Py B) : Py B :=
  fun w =>
    match m w with
    | (Return a, w') => k a w'
    | (Raise e, w') => (Raise e, w')
    end.

Notation "x <- m ;; k" := (bind m (fun x => k))
  (at level 100, m at next level, right associativity).
Notation "m ;;; k" := (bind m (fun _ => k))
  (at level 100, right associativity).

Definition log (e : Event) : Py unit :=
  fun w => (Return tt, mkWorld (server w) (keyboard w) (trace w ++ [e])).

(** The requests a world has seen, oldest first. *)
Definition requests (w : World) : list Request :=
  omap (fun e => match e with Sent r => Some r | Prompted _ => None end) (trace w).

(** [getpass.getpass(prompt=...)]: one line from the terminal, [EOFError]
    when there is none. *)
Definition getpass (prompt : string) : Py PyVal :=
  log (Prompted prompt) ;;;
  fun w =>
    match keyboard w with
    | line :: rest => (Return (PStr line), mkWorld (server w) rest (trace w))
    | [] => (Raise EOFError, w)
    end.

Module houston.

(** Modelled from the spec: [quantrocket/houston.py] is not among the
    sources.  Transport, section 4.1: [request(method, path, params?,
    body?) -> response], network I/O its only side effect; a network
    failure propagates unwrapped (section 7). *)
Definition request (m : Method) (url : string)
           (params data : option (gmap string PyVal)) : Py Response :=
  let r := mkRequest m url params data in
  log (Sent r) ;;;
  fun w =>
    match server w r with
    | Some response => (Return response, w)
    | None => (Raise ConnectionError, w)
    end.

(** Modelled from the spec: [houston.get], [houston.put], [houston.post]
    and [houston.delete] of the missing [quantrocket/houston.py], each the
    transport call with the method it is named after. *)
Definition get (url : string) (params : option (gmap string PyVal)) : Py Response :=
  request GET url params None.

Definition put (url : string) (params data : option (gmap string PyVal)) : Py Response :=
  request PUT url params data.

Definition post (url : string) (params : option (gmap string PyVal)) : Py Response :=
  request POST url params None.

Definition delete (url : string) (params : option (gmap string PyVal)) : Py Response :=
  request DELETE url params None.

Definition is_2xx (status : Z) : bool := (200 <=? status) && (status <? 300).

(** Modelled from the spec: [raise_for_status_with_json] of the missing
    [quantrocket/houston.py], the Error Mapper of section 4.2.  If the
    status is non-2xx, extract the JSON field [error] when present and
    raise [RemoteServiceError{status, message}]; otherwise raise
    [RemoteServiceError{status, raw_body}]. *)
Definition raise_for_status_with_json (response : Response) : Py unit :=
  if is_2xx (status_code response) then ret tt
  else
    match Json.loads (content response) with
    | Some (JObj kvs) =>
        match dict_get "error" kvs with
        | Some message => raise (RemoteServiceError (status_code response) message)
        | None => raise (RemoteServiceError (status_code response) (JStr (content response)))
        end
    | _ => raise (RemoteServiceError (status_code response) (JStr (content response)))
    end.

End houston.

(** [response.json()]: the decoded body, [JSONDecodeError] when the body is
    not a JSON document. *)
Definition json (response : Response) : Py JSON :=
  match Json.loads (content response) with
  | Some v => ret v
  | None => raise JSONDecodeError
  end.

(** ** quantrocket/db.py *)

(** [if v: d[k] = v] *)
Definition set_if (k : string) (v : PyVal) (d : gmap string PyVal) : gmap string PyVal :=
  if truthy v then <[k := v]> d else d.

Definition list_databases (services codes detail expand : PyVal) : Py JSON :=
  let params : gmap string PyVal := ∅ in
  let params := set_if "services" services params in
  let params := set_if "codes" codes params in
  let params := set_if "detail" detail params in
  let params := set_if "expand" expand params in
  response <- houston.get "/db/databases" (Some params) ;;
  houston.raise_for_status_with_json response ;;;
  json response.

Definition get_s3_config : Py JSON :=
  response <- houston.get "/db/s3config" None ;;
  houston.raise_for_status_with_json response ;;;
  (* It's possible to get a 204 empty response *)
  if String.eqb (content response) EmptyString then ret (JObj [])
  else json response.

Definition set_s3_config (access_key_id secret_access_key bucket region : PyVal) : Py JSON :=
  secret_access_key <-
    (if truthy access_key_id && negb (truthy secret_access_key)
     then getpass "Enter AWS Secret Access Key: "
     else ret secret_access_key) ;;
  let data : gmap string PyVal := ∅ in
  let data := set_if "access_key_id" access_key_id data in
  let data := set_if "secret_access_key" secret_access_key data in
  let data := set_if "bucket" bucket data in
  let data := set_if "region" region data in
  response <- houston.put "/db/s3config" None (Some data) ;;
  houston.raise_for_status_with_json response ;;;
  json response.

Definition s3_push_databases (services codes : PyVal) : Py JSON :=
  let params : gmap string PyVal := ∅ in
  let params := set_if "services" services params in
  let params := set_if "codes" codes params in
  response <- houston.put "/db/s3" (Some params) None ;;
  houston.raise_for_status_with_json response ;;;
  json response.

Definition s3_pull_databases (services codes force : PyVal) : Py JSON :=
  let params : gmap string PyVal := ∅ in
  let params := set_if "services" services params in
  let params := set_if "codes" codes params in
  let params := set_if "force" force params in
  response <- houston.get "/db/s3" (Some params) ;;
  houston.raise_for_status_with_json response ;;;
  json response.

Definition optimize_databases (services codes : PyVal) : Py JSON :=
  let params : gmap string PyVal := ∅ in
  let params := set_if "codes" codes params in
  let params := set_if "services" services params in
  response <- houston.post "/db/optimizations" (Some params) ;;
  houston.raise_for_status_with_json response ;;;
  json response.

(** The six typed operations of the module, with their arguments. *)
Inductive DbCall : Type :=
| ListDatabases (services codes detail expand : PyVal)
| GetS3Config
| SetS3Config (access_key_id secret_access_key bucket region : PyVal)
| S3PushDatabases (services codes : PyVal)
| S3PullDatabases (services codes force : PyVal)
| OptimizeDatabases (services codes : PyVal).

Definition call (c : DbCall) : Py JSON :=
  match c with
  | ListDatabases services codes detail expand => list_databases services codes detail expand
  | GetS3Config => get_s3_config
  | SetS3Config access_key_id secret_access_key bucket region =>
      set_s3_config access_key_id secret_access_key bucket region
  | S3PushDatabases services codes => s3_push_databases services codes
  | S3PullDatabases services codes force => s3_pull_databases services codes force
  | OptimizeDatabases services codes => optimize_databases services codes
  end.


(** ** argparse, as far as the realtime parsers use it *)

Module argparse.

(** The model covers what [realtime.py] declares: positionals and options
    with [nargs] absent, ["*"] or ["+"], the actions [store], [store_true]
    and [store_const], [type=int], [choices], [required], [dest], and the
    [-h] option every parser gets.  Command lines are read token by token:
    an option is recognised by its exact option string and takes its values
    from the tokens that follow.  Abbreviated long options, the
    [--option=value] and [-ovalue] spellings and the [--] separator are
    outside the model, which counts them as unrecognised.  [metavar=] and
    [help=] only shape messages and are left out.  Each parser of the file
    has at most one positional; positionals are filled greedily, in order.
    As in argparse, a conversion or arity error stops the parser where it
    occurs, while unrecognised and missing arguments are reported once all
    tokens are read (so a later [-h] still prints the help). *)

Inductive Nargs : Type := One | ZeroOrMore | OneOrMore.
Inductive Action : Type := store | store_true | store_const.
Inductive Conv : Type := str | int.

(** The keyword arguments of [add_argument]. *)
Inductive Keyword : Type :=
| nargs (n : Nargs)
| action (a : Action)
| const (v : PyVal)
| type (t : Conv)
| choices (l : list string)
| required (b : bool)
| dest (d : string).

Record Argument : Type := mkArgument {
  option_strings : list string;
  arg_dest : string;
  arg_nargs : Nargs;
  arg_action : Action;
  arg_const : PyVal;
  arg_type : Conv;
  arg_choices : option (list string);
  arg_required : bool
}.

Definition is_dash (c : ascii) : bool := Ascii.eqb c "-"%char.

Definition starts_with_dash (s : string) : bool :=
  match s with
  | String c _ => is_dash c
  | EmptyString => false
  end.

Fixpoint lstrip_dashes (s : string) : string :=
  match s with
  | String c rest => if is_dash c then lstrip_dashes rest else s
  | EmptyString => s
  end.

Fixpoint dashes_to_underscores (s : string) : string :=
  match s with
  | String c rest =>
      String (if is_dash c then "_"%char else c) (dashes_to_underscores rest)
  | EmptyString => EmptyString
  end.

(** The destination argparse infers: the first long option string, else the
    first option string, without its leading dashes and with inner dashes
    turned into underscores; a positional is stored under its name. *)
Definition infer_dest (name_or_flags : list string) : string :=
  match name_or_flags with
  | [] => EmptyString
  | first :: _ =>
      if starts_with_dash first then
        let long := List.find (String.prefix "--") name_or_flags in
        dashes_to_underscores (lstrip_dashes (default first long))
      else first
  end.

Definition set_keyword (a : Argument) (k : Keyword) : Argument :=
  match k with
  | nargs n => mkArgument (option_strings a) (arg_dest a) n (arg_action a)
                 (arg_const a) (arg_type a) (arg_choices a) (arg_required a)
  | action x => mkArgument (option_strings a) (arg_dest a) (arg_nargs a) x
                  (arg_const a) (arg_type a) (arg_choices a) (arg_required a)
  | const v => mkArgument (option_strings a) (arg_dest a) (arg_nargs a) (arg_action a)
                 v (arg_type a) (arg_choices a) (arg_required a)
  | type t => mkArgument (option_strings a) (arg_dest a) (arg_nargs a) (arg_action a)
                (arg_const a) t (arg_choices a) (arg_required a)
  | choices l => mkArgument (option_strings a) (arg_dest a) (arg_nargs a) (arg_action a)
                   (arg_const a) (arg_type a) (Some l) (arg_required a)
  | required b => mkArgument (option_strings a) (arg_dest a) (arg_nargs a) (arg_action a)
                    (arg_const a) (arg_type a) (arg_choices a) b
  | dest d => mkArgument (option_strings a) d (arg_nargs a) (arg_action a)
                (arg_const a) (arg_type a) (arg_choices a) (arg_required a)
  end.

(** [parser.add_argument]: the names or flags, then the keywords. *)
Definition add_argument (name_or_flags : list string) (kwargs : list Keyword) : Argument :=
  let flags :=
    match name_or_flags with
    | first :: _ => if starts_with_dash first then name_or_flags else []
    | [] => []
    end in
  fold_left set_keyword kwargs
    (mkArgument flags (infer_dest name_or_flags) One store PNone str None false).

Definition is_positional (a : Argument) : bool :=
  match option_strings a with [] => true | _ :: _ => false end.

(** A parser: its name, its arguments in the order they were added, and
    what [set_defaults] gave it. *)
Record Parser : Type := mkParser {
  prog : string;
  actions : list Argument;
  defaults : list (string * PyVal)
}.

(** *** [int(token)] *)

Definition code (c : ascii) : Z := Z.of_nat (nat_of_ascii c).

Definition is_digit (c : ascii) : bool := (48 <=? code c) && (code c <=? 57).

Definition is_space (c : ascii) : bool :=
  ((9 <=? code c) && (code c <=? 13)) || ((28 <=? code c) && (code c <=? 32)).

Fixpoint lstrip (l : list ascii) : list ascii :=
  match l with
  | c :: rest => if is_space c then lstrip rest else l
  | [] => []
  end.

Definition strip (l : list ascii) : list ascii := rev (lstrip (rev (lstrip l))).

(** Decimal digits, single underscores allowed between them. *)
Fixpoint digits (acc : Z) (after_digit : bool) (l : list ascii) : option Z :=
  match l with
  | [] => if after_digit then Some acc else None
  | c :: rest =>
      if is_digit c then digits (acc * 10 + (code c - 48)) true rest
      else if Ascii.eqb c "_"%char then
        if after_digit then digits acc false rest else None
      else None
  end.

Definition py_int (s : string) : option Z :=
  match strip (list_ascii_of_string s) with
  | "+"%char :: rest => digits 0 false rest
  | "-"%char :: rest => Z.opp <$> digits 0 false rest
  | l => digits 0 false l
  end.

(** *** Reading the tokens *)

Fixpoint skip_digits (l : list ascii) : list ascii :=
  match l with
  | c :: rest => if is_digit c then skip_digits rest else l
  | [] => []
  end.

Definition some_digits (l : list ascii) : bool :=
  match l with [] => false | _ :: _ => forallb is_digit l end.

(** [_negative_number_matcher]: ['^-\d+$|^-\d*\.\d+$'], where [$] also
    matches before a final newline. *)
Definition is_negative_number (s : string) : bool :=
  let l := list_ascii_of_string s in
  let l := match rev l with "010"%char :: body => rev body | _ => l end in
  match l with
  | "-"%char :: rest =>
      some_digits rest ||
      match skip_digits rest with
      | "."%char :: frac => some_digits frac
      | _ => false
      end
  | _ => false
  end.

Definition has_space (s : string) : bool :=
  existsb (Ascii.eqb " "%char) (list_ascii_of_string s).

Definition has_option_string (tok : string) (a : Argument) : bool :=
  existsb (String.eqb tok) (option_strings a).

Inductive Kind : Type :=
| Optional (a : Argument)
| Positional
| Help
| Unknown.

(** [_parse_optional]: what a token is, for a parser with these arguments
    (none of which looks like a negative number). *)
Definition classify (args : list Argument) (tok : string) : Kind :=
  if negb (starts_with_dash tok) then Positional
  else if String.eqb tok "-h" || String.eqb tok "--help" then Help
  else
    match List.find (has_option_string tok) args with
    | Some a => Optional a
    | None =>
        if String.eqb tok "-" then Positional
        else if is_negative_number tok then Positional
        else if has_space tok then Positional
        else Unknown
    end.

(** Why parsing stops without a namespace: [-h] prints the help and exits,
    [parser.error] prints the usage and exits with status 2. *)
Inductive Stop : Type :=
| PrintHelp
| UsageError (message : string).

(** The option or positional whose values are being collected. *)
Inductive Slot : Type :=
| Idle
| Filling (a : Argument) (got : list string).

(** The namespace so far, the slot, the positionals still to fill, the
    destinations written, and the tokens nothing could take. *)
Record State : Type := mkState {
  namespace : gmap string PyVal;
  slot : Slot;
  positionals : list Argument;
  seen : list string;
  extras : list string
}.

(** [_get_value] and [_check_value]: the conversion by [type], then the
    test against [choices] (which the file gives to string arguments only). *)
Definition convert (a : Argument) (tok : string) : Stop + PyVal :=
  match arg_type a with
  | int =>
      match py_int tok with
      | Some z => inr (PInt z)
      | None => inl (UsageError "invalid int value")
      end
  | str =>
      match arg_choices a with
      | Some l =>
          if existsb (String.eqb tok) l then inr (PStr tok)
          else inl (UsageError "invalid choice")
      | None => inr (PStr tok)
      end
  end.

Fixpoint converts (a : Argument) (toks : list string) : Stop + list PyVal :=
  match toks with
  | [] => inr []
  | tok :: rest =>
      match convert a tok with
      | inl e => inl e
      | inr v =>
          match converts a rest with
          | inl e => inl e
          | inr vs => inr (v :: vs)
          end
      end
  end.

(** The value an argument stores, given the tokens it took. *)
Definition value_of (a : Argument) (toks : list string) : Stop + PyVal :=
  match arg_action a with
  | store_true => inr (PBool true)
  | store_const => inr (arg_const a)
  | store =>
      match arg_nargs a with
      | One =>
          match toks with
          | [tok] => convert a tok
          | _ => inl (UsageError "expected one argument")
          end
      | ZeroOrMore =>
          match converts a toks with
          | inl e => inl e
          | inr vs => inr (PList vs)
          end
      | OneOrMore =>
          match toks with
          | [] => inl (UsageError "expected at least one argument")
          | _ :: _ =>
              match converts a toks with
              | inl e => inl e
              | inr vs => inr (PList vs)
              end
          end
      end
  end.

(** [setattr(namespace, dest, value)], the argument being marked as seen. *)
Definition write (a : Argument) (toks : list string) (st : State) : Stop + State :=
  match value_of a toks with
  | inl e => inl e
  | inr v => inr (mkState (<[arg_dest a := v]> (namespace st)) Idle
                          (positionals st) (arg_dest a :: seen st) (extras st))
  end.

Definition close (st : State) : Stop + State :=
  match slot st with
  | Idle => inr st
  | Filling a got => write a got st
  end.

Definition fill (a : Argument) (got : list string) (st : State) : State :=
  mkState (namespace st) (Filling a got) (positionals st) (seen st) (extras st).

Definition extra (tok : string) (st : State) : State :=
  mkState (namespace st) (slot st) (positionals st) (seen st) (extras st ++ [tok]).

(** One token.  A value goes to the slot being filled, else to the next
    positional, else to the extras; any other token first closes the slot. *)
Definition step (args : list Argument) (st : State) (tok : string) : Stop + State :=
  match classify args tok with
  | Positional =>
      match slot st with
      | Filling a got =>
          match arg_nargs a with
          | One => write a [tok] st
          | _ => inr (fill a (got ++ [tok]) st)
          end
      | Idle =>
          match positionals st with
          | p :: rest =>
              let st' := mkState (namespace st) Idle rest (seen st) (extras st) in
              match arg_nargs p with
              | One => write p [tok] st'
              | _ => inr (fill p [tok] st')
              end
          | [] => inr (extra tok st)
          end
      end
  | kind =>
      match close st with
      | inl e => inl e
      | inr st' =>
          match kind with
          | Optional a =>
              match arg_action a with
              | store => inr (fill a [] st')
              | _ => write a [] st'
              end
          | Help => inl PrintHelp
          | _ => inr (extra tok st')
          end
      end
  end.

Fixpoint run (args : list Argument) (st : State) (toks : list string) : Stop + State :=
  match toks with
  | [] => inr st
  | tok :: rest =>
      match step args st tok with
      | inl e => inl e
      | inr st' => run args st' rest
      end
  end.

(** The positionals no token reached: ["*"] stores the empty list, the
    others are required. *)
Fixpoint leftover (ps : list Argument) (st : State) : Stop + State :=
  match ps with
  | [] => inr st
  | p :: rest =>
      match arg_nargs p with
      | ZeroOrMore =>
          match write p [] st with
          | inl e => inl e
          | inr st' => leftover rest st'
          end
      | _ => inl (UsageError "the following arguments are required")
      end
  end.

Definition missing (args : list Argument) (st : State) : bool :=
  existsb (fun a => arg_required a && negb (existsb (String.eqb (arg_dest a)) (seen st)))
          args.

Definition finish (args : list Argument) (st : State) : Stop + gmap string PyVal :=
  match close st with
  | inl e => inl e
  | inr st1 =>
      match leftover (positionals st1) st1 with
      | inl e => inl e
      | inr st2 =>
          if missing args st2
          then inl (UsageError "the following arguments are required")
          else
            match extras st2 with
            | [] => inr (namespace st2)
            | _ :: _ => inl (UsageError "unrecognized arguments")
            end
      end
  end.

Definition default_of (a : Argument) : PyVal :=
  match arg_action a with
  | store_true => PBool false
  | _ => PNone
  end.

Definition set_absent (ns : gmap string PyVal) (kv : string * PyVal) : gmap string PyVal :=
  match ns !! kv.1 with
  | Some _ => ns
  | None => <[kv.1 := kv.2]> ns
  end.

(** The namespace before any token is read: the default of every argument,
    then the parser's own defaults for the names still absent. *)
Definition initial_namespace (p : Parser) : gmap string PyVal :=
  fold_left set_absent (defaults p)
    (fold_left set_absent ((fun a => (arg_dest a, default_of a)) <$> actions p) ∅).

Definition start (p : Parser) : State :=
  mkState (initial_namespace p) Idle
          (filter (fun a => is_positional a = true) (actions p)) [] [].

(** [parser.parse_args(argv)] *)
Definition parse_args (p : Parser) (argv : list string) : Stop + gmap string PyVal :=
  match run (actions p) (start p) argv with
  | inl e => inl e
  | inr st => finish (actions p) st
  end.

(** A required group of subparsers stored under [dest]: the first token
    names the subparser, which reads the rest. *)
Definition parse_subcommand (dest : string) (subparsers : list Parser)
           (argv : list string) : Stop + gmap string PyVal :=
  match argv with
  | [] => inl (UsageError "the following arguments are required")
  | name :: rest =>
      if String.eqb name "-h" || String.eqb name "--help" then inl PrintHelp
      else
        match List.find (fun p => String.eqb name (prog p)) subparsers with
        | None => inl (UsageError "invalid choice")
        | Some p =>
            match parse_args p rest with
            | inl e => inl e
            | inr ns => inr (<[dest := PStr name]> ns)
            end
        end
  end.

End argparse.

(** ** quantrocket/cli/subcommands/realtime.py *)

Module realtime_cli.
Import argparse.

Definition create_tick_db_parser : Parser :=
  mkParser "create-tick-db"
    [ add_argument ["code"] [];
      add_argument ["-u"; "--universes"] [nargs ZeroOrMore];
      add_argument ["-i"; "--conids"] [nargs ZeroOrMore];
      add_argument ["-v"; "--vendor"] [choices ["ib"]];
      add_argument ["-f"; "--fields"] [nargs ZeroOrMore];
      add_argument ["-p"; "--primary-exchange"] [action store_true] ]
    [("func", PStr "quantrocket.realtime._cli_create_tick_db")].

Definition create_agg_db_parser : Parser :=
  mkParser "create-agg-db"
    [ add_argument ["code"] [];
      add_argument ["-f"; "--from"] [required true; dest "from_code"];
      add_argument ["-z"; "--bar-size"] [required true];
      add_argument ["-c"; "--close"] [nargs ZeroOrMore; dest "close_fields"];
      add_argument ["-o"; "--open"] [nargs ZeroOrMore; dest "open_fields"];
      add_argument ["-g"; "--high"] [nargs ZeroOrMore; dest "high_fields"];
      add_argument ["-l"; "--low"] [nargs ZeroOrMore; dest "low_fields"];
      add_argument ["-m"; "--mean"] [nargs ZeroOrMore; dest "mean_fields"] ]
    [("func", PStr "quantrocket.realtime._cli_create_agg_db")].

Definition config_parser : Parser :=
  mkParser "config"
    [ add_argument ["code"] [] ]
    [("func", PStr "quantrocket.realtime._cli_get_db_config")].

Definition drop_db_parser : Parser :=
  mkParser "drop-db"
    [ add_argument ["code"] [];
      add_argument ["--confirm-by-typing-db-code-again"] [required true];
      add_argument ["--cascade"] [action store_true] ]
    [("func", PStr "quantrocket.realtime._cli_drop_db")].

Definition collect_parser : Parser :=
  mkParser "collect"
    [ add_argument ["codes"] [nargs OneOrMore];
      add_argument ["-i"; "--conids"] [nargs ZeroOrMore];
      add_argument ["-u"; "--universes"] [nargs ZeroOrMore];
      add_argument ["-f"; "--fields"] [nargs ZeroOrMore];
      add_argument ["--until"] [];
      add_argument ["-s"; "--snapshot"] [action store_true];
      add_argument ["-w"; "--wait"] [action store_true] ]
    [("func", PStr "quantrocket.realtime._cli_collect_market_data")].

Definition active_parser : Parser :=
  mkParser "active"
    [ add_argument ["-d"; "--detail"] [action store_true] ]
    [("func", PStr "quantrocket.realtime._cli_get_active_collections")].

Definition cancel_parser : Parser :=
  mkParser "cancel"
    [ add_argument ["codes"] [nargs ZeroOrMore];
      add_argument ["-i"; "--conids"] [nargs ZeroOrMore];
      add_argument ["-u"; "--universes"] [nargs ZeroOrMore];
      add_argument ["-a"; "--all"] [action store_true; dest "cancel_all"] ]
    [("func", PStr "quantrocket.realtime._cli_cancel_market_data")].

Definition get_parser : Parser :=
  mkParser "get"
    [ add_argument ["code"] [];
      add_argument ["-s"; "--start-date"] [];
      add_argument ["-e"; "--end-date"] [];
      add_argument ["-u"; "--universes"] [nargs ZeroOrMore];
      add_argument ["-i"; "--conids"] [type int; nargs ZeroOrMore];
      add_argument ["--exclude-universes"] [nargs ZeroOrMore];
      add_argument ["--exclude-conids"] [type int; nargs ZeroOrMore];
      add_argument ["-o"; "--outfile"] [dest "filepath_or_buffer"];
      add_argument ["-j"; "--json"] [action store_const; const (PStr "json"); dest "output"];
      add_argument ["-f"; "--fields"] [nargs ZeroOrMore] ]
    [("func", PStr "quantrocket.realtime._cli_download_market_data_file")].

(** The subparsers [add_subparser] registers under the [realtime] command,
    a required group stored under [subcommand]. *)
Definition add_subparser : list Parser :=
  [ create_tick_db_parser; create_agg_db_parser; config_parser; drop_db_parser;
    collect_parser; active_parser; cancel_parser; get_parser ].

(** The namespace of [quantrocket realtime argv...]. *)
Definition parse (argv : list string) : Stop + gmap string PyVal :=
  parse_subcommand "subcommand" add_subparser argv.

End realtime_cli.

(** ** The realtime operations *)

Module realtime.

(** [quantrocket/realtime.py] is not among the sources.  Its operations
    follow Typed Operations, section 4.3, of the specification: each
    collects only its non-empty optional parameters into the request
    payload, sends it to the endpoint of section 6, maps errors (section
    4.2) and returns the decoded JSON; the special cases of [drop-db],
    [collect] and [get] are as that section states them. *)

(** Modelled from the spec: the decoding step of the missing
    [quantrocket/realtime.py], section 4.2, applied after every transport
    call; a 204 is not an error and decodes to an empty result. *)
Definition decoded (response : Response) : Py JSON :=
  houston.raise_for_status_with_json response ;;;
  if String.eqb (content response) EmptyString then ret (JObj [])
  else json response.

(** Modelled from the spec: [create_tick_db] of the missing
    [quantrocket/realtime.py], [POST /realtime/config/{code}]; section 8
    gives the payload, [code] included. *)
Definition create_tick_db (code : string)
           (universes conids vendor fields primary_exchange : PyVal) : Py JSON :=
  let params : gmap string PyVal := {[ "code" := PStr code ]} in
  let params := set_if "universes" universes params in
  let params := set_if "conids" conids params in
  let params := set_if "vendor" vendor params in
  let params := set_if "fields" fields params in
  let params := set_if "primary_exchange" primary_exchange params in
  response <- houston.post ("/realtime/config/" +:+ code) (Some params) ;;
  decoded response.

(** Modelled from the spec: [drop_db] of the missing
    [quantrocket/realtime.py], [DELETE /realtime/config/{code}]; the caller
    repeats the code, and a repeated value that does not match fails locally
    with [ValidationError] before the network is called. *)
Definition drop_db (code confirm_by_typing_db_code_again : string)
           (cascade : PyVal) : Py JSON :=
  if negb (String.eqb confirm_by_typing_db_code_again code)
  then raise (ValidationError "the confirmation does not match the database code")
  else
    let params : gmap string PyVal := ∅ in
    let params := set_if "cascade" cascade params in
    response <- houston.delete ("/realtime/config/" +:+ code) (Some params) ;;
    decoded response.

(** Modelled from the spec: [collect_market_data] of the missing
    [quantrocket/realtime.py], [POST /realtime/collections]; [wait] requires
    [snapshot], otherwise [ValidationError] before any network call. *)
Definition collect_market_data (codes conids universes fields until snapshot wait : PyVal)
  : Py JSON :=
  if truthy wait && negb (truthy snapshot)
  then raise (ValidationError "wait requires snapshot")
  else
    let params : gmap string PyVal := ∅ in
    let params := set_if "codes" codes params in
    let params := set_if "conids" conids params in
    let params := set_if "universes" universes params in
    let params := set_if "fields" fields params in
    let params := set_if "until" until params in
    let params := set_if "snapshot" snapshot params in
    let params := set_if "wait" wait params in
    response <- houston.post "/realtime/collections" (Some params) ;;
    decoded response.

(** JSON was requested. *)
Definition is_json (output : PyVal) : bool :=
  match output with
  | PStr s => String.eqb s "json"
  | _ => false
  end.

(** Modelled from the spec: [download_market_data_file] of the missing
    [quantrocket/realtime.py], [GET /realtime/{code}.csv] or [.json]; the
    output format is CSV by default, JSON if requested.  The body is
    returned; writing it to the file or to stdout is outside the model. *)
Definition download_market_data_file (code : string)
           (start_date end_date universes conids exclude_universes exclude_conids
            fields filepath_or_buffer output : PyVal) : Py string :=
  let output := if is_json output then "json" else "csv" in
  let params : gmap string PyVal := ∅ in
  let params := set_if "start_date" start_date params in
  let params := set_if "end_date" end_date params in
  let params := set_if "universes" universes params in
  let params := set_if "conids" conids params in
  let params := set_if "exclude_universes" exclude_universes params in
  let params := set_if "exclude_conids" exclude_conids params in
  let params := set_if "fields" fields params in
  response <- houston.get ("/realtime/" +:+ code +:+ "." +:+ output) (Some params) ;;
  houston.raise_for_status_with_json response ;;;
  ret (content response).

(** *** From the namespace to the operation *)

(** The keyword argument [name] of a namespace, [None] when absent. *)
Definition kwarg (ns : gmap string PyVal) (name : string) : PyVal :=
  default PNone (ns !! name).

(** The string a value is; the codes of a parsed command line are strings. *)
Definition text (v : PyVal) : string :=
  match v with
  | PStr s => s
  | _ => EmptyString
  end.

(** Modelled from the spec: the handlers [_cli_create_tick_db],
    [_cli_drop_db], [_cli_collect_market_data] and
    [_cli_download_market_data_file] of the missing [quantrocket/realtime.py].
    CLI Adapter, section 4.4: each subcommand maps one to one to a typed
    operation, which receives the parsed flags as keyword arguments; the
    rendering of the result is outside the model. *)
Definition cli_create_tick_db (ns : gmap string PyVal) : Py unit :=
  create_tick_db (text (kwarg ns "code")) (kwarg ns "universes") (kwarg ns "conids")
    (kwarg ns "vendor") (kwarg ns "fields") (kwarg ns "primary_exchange") ;;;
  ret tt.

Definition cli_drop_db (ns : gmap string PyVal) : Py unit :=
  drop_db (text (kwarg ns "code")) (text (kwarg ns "confirm_by_typing_db_code_again"))
    (kwarg ns "cascade") ;;;
  ret tt.

Definition cli_collect_market_data (ns : gmap string PyVal) : Py unit :=
  collect_market_data (kwarg ns "codes") (kwarg ns "conids") (kwarg ns "universes")
    (kwarg ns "fields") (kwarg ns "until") (kwarg ns "snapshot") (kwarg ns "wait") ;;;
  ret tt.

Definition cli_download_market_data_file (ns : gmap string PyVal) : Py unit :=
  download_market_data_file (text (kwarg ns "code")) (kwarg ns "start_date")
    (kwarg ns "end_date") (kwarg ns "universes") (kwarg ns "conids")
    (kwarg ns "exclude_universes") (kwarg ns "exclude_conids") (kwarg ns "fields")
    (kwarg ns "filepath_or_buffer") (kwarg ns "output") ;;;
  ret tt.

(** Modelled from the spec: the dispatch on [func], section 4.4.  The
    handlers of [create-agg-db], [config], [active] and [cancel] are outside
    the model. *)
Definition handler (func : string) : option (gmap string PyVal -> Py unit) :=
  if String.eqb func "quantrocket.realtime._cli_create_tick_db"
  then Some cli_create_tick_db
  else if String.eqb func "quantrocket.realtime._cli_drop_db"
  then Some cli_drop_db
  else if String.eqb func "quantrocket.realtime._cli_collect_market_data"
  then Some cli_collect_market_data
  else if String.eqb func "quantrocket.realtime._cli_download_market_data_file"
  then Some cli_download_market_data_file
  else None.

(** Modelled from the spec: [quantrocket realtime argv...], stateless
    command dispatch (section 4.4): parse, then call the handler.  argparse
    leaves through [SystemExit], with status 0 after [-h] and 2 after a
    usage error. *)
Definition main (argv : list string) : Py unit :=
  match realtime_cli.parse argv with
  | inl argparse.PrintHelp => raise (SystemExit 0)
  | inl (argparse.UsageError _) => raise (SystemExit 2)
  | inr ns =>
      match handler (text (kwarg ns "func")) with
      | Some run_handler => run_handler ns
      | None => raise NotModelled
      end
  end.

End realtime.

(** ** Observations on a run *)

(** The requests issued while [m] runs from [w]. *)
Definition issued {A} (m : Py A) (w : World) : list Request :=
  drop (length (requests w)) (requests (snd (m w))).

(** The events added while [m] runs from [w]. *)
Definition events {A} (m : Py A) (w : World) : list Event :=
  drop (length (trace w)) (trace (snd (m w))).

(** The dictionary a request carries, as [params=] or as [data=]. *)
Definition payload (r : Request) : gmap string PyVal :=
  match params r, data r with
  | Some p, _ => p
  | None, Some d => d
  | None, None => ∅
  end.

(** The service answers every request with [resp]. *)
Definition answers (w : World) (resp : Response) : Prop :=
  forall r, server w r = Some resp.

(** The optional parameters of each operation: the key it is sent under and
    the value the caller passed ([None] or [False] when omitted). *)
Definition optional_parameters (c : DbCall) : list (string * PyVal) :=
  match c with
  | ListDatabases services codes detail expand =>
      [("services", services); ("codes", codes); ("detail", detail); ("expand", expand)]
  | GetS3Config => []
  | SetS3Config access_key_id secret_access_key bucket region =>
      [("access_key_id", access_key_id); ("secret_access_key", secret_access_key);
       ("bucket", bucket); ("region", region)]
  | S3PushDatabases services codes => [("services", services); ("codes", codes)]
  | S3PullDatabases services codes force =>
      [("services", services); ("codes", codes); ("force", force)]
  | OptimizeDatabases services codes => [("services", services); ("codes", codes)]
  end.

(** The call asks for the secret at the terminal. *)
Definition prompts (c : DbCall) : bool :=
  match c with
  | SetS3Config access_key_id secret_access_key _ _ =>
      truthy access_key_id && negb (truthy secret_access_key)
  | _ => false
  end.

(** The method and path section 6 of the spec lists for each operation. *)
Definition endpoint (c : DbCall) : Method * string :=
  match c with
  | ListDatabases _ _ _ _ => (GET, "/db/databases")
  | GetS3Config => (GET, "/db/s3config")
  | SetS3Config _ _ _ _ => (PUT, "/db/s3config")
  | S3PushDatabases _ _ => (PUT, "/db/s3")
  | S3PullDatabases _ _ _ => (GET, "/db/s3")
  | OptimizeDatabases _ _ => (POST, "/db/optimizations")
  end.

(** The body [{"error": "not found"}]. *)
Definition not_found_body : string :=
  "{" +:+ String dquote "error" +:+ String dquote ": "
      +:+ String dquote "not found" +:+ String dquote "}".

(** The method and path of a request. *)
Definition route (r : Request) : Method * string := (method r, path r).




(** No value of the dictionary is falsy; in particular none is [None]. *)
Definition all_truthy (d : gmap string PyVal) : Prop :=
  forall k v, d !! k = Some v -> truthy v = true.

(** ** The normal form of a db call: prompt, one request, decoding *)

(** What follows the transport call in every operation but [get_s3_config]. *)
Definition decode (response : Response) : Py JSON :=
  houston.raise_for_status_with_json response ;;; json response.

Definition secret_prompt : string := "Enter AWS Secret Access Key: ".

Definition prompted (w : World) : World :=
  mkWorld (server w) (keyboard w) (trace w ++ [Prompted secret_prompt]).

Definition sent (r : Request) (w : World) : World :=
  mkWorld (server w) (keyboard w) (trace w ++ [Sent r]).

(** The secret in effect and the world once the prompt, if any, is answered. *)
Definition after_prompt (c : DbCall) (w : World) : option (PyVal * World) :=
  match c with
  | SetS3Config _ secret_access_key _ _ =>
      if prompts c then
        match keyboard w with
        | line :: rest => Some (PStr line, mkWorld (server w) rest (trace (prompted w)))
        | [] => None
        end
      else Some (secret_access_key, w)
  | _ => Some (PNone, w)
  end.

Definition request_of (c : DbCall) (secret : PyVal) : Request :=
  match c with
  | ListDatabases services codes detail expand =>
      mkRequest GET "/db/databases"
        (Some (set_if "expand" expand (set_if "detail" detail
                 (set_if "codes" codes (set_if "services" services ∅))))) None
  | GetS3Config => mkRequest GET "/db/s3config" None None
  | SetS3Config access_key_id _ bucket region =>
      mkRequest PUT "/db/s3config" None
        (Some (set_if "region" region (set_if "bucket" bucket
                 (set_if "secret_access_key" secret
                    (set_if "access_key_id" access_key_id ∅)))))
  | S3PushDatabases services codes =>
      mkRequest PUT "/db/s3"
        (Some (set_if "codes" codes (set_if "services" services ∅))) None
  | S3PullDatabases services codes force =>
      mkRequest GET "/db/s3"
        (Some (set_if "force" force (set_if "codes" codes
                 (set_if "services" services ∅)))) None
  | OptimizeDatabases services codes =>
      mkRequest POST "/db/optimizations"
        (Some (set_if "services" services (set_if "codes" codes ∅))) None
  end.

Definition finish (c : DbCall) (response : Response) : Py JSON :=
  match c with
  | GetS3Config =>
      houston.raise_for_status_with_json response ;;;
      if String.eqb (content response) EmptyString then ret (JObj [])
      else json response
  | _ => decode response
  end.

(** ** quantrocket/db.py: the command line wrappers *)

Section db_cli.

(** [json_to_cli] of [quantrocket/cli/utils/output.py] is not among the
    sources: it is a parameter here, which receives the call it is to make
    and render. *)
Context {R : Type} (json_to_cli : Py JSON -> Py R).

Definition _cli_list_databases (services codes detail expand : PyVal) : Py R :=
  json_to_cli (list_databases services codes detail expand).

Definition _cli_get_or_set_s3_config
           (access_key_id secret_access_key bucket region : PyVal) : Py R :=
  if truthy access_key_id || truthy secret_access_key || truthy bucket || truthy region
  then json_to_cli (set_s3_config access_key_id secret_access_key bucket region)
  else json_to_cli get_s3_config.

Definition _cli_s3_push_databases (services codes : PyVal) : Py R :=
  json_to_cli (s3_push_databases services codes).

Definition _cli_s3_pull_databases (services codes force : PyVal) : Py R :=
  json_to_cli (s3_pull_databases services codes force).

Definition _cli_optimize_databases (services codes : PyVal) : Py R :=
  json_to_cli (optimize_databases services codes).

End db_cli.

(** The parameters a db call collects, in the order the code tests them,
    each with the value in effect: for [set_s3_config] the secret is the
    line typed at the prompt when the call prompts. *)
Definition sent_parameters (c : DbCall) (w : World) : list (string * PyVal) :=
  match c with
  | SetS3Config access_key_id secret_access_key bucket region =>
      [("access_key_id", access_key_id);
       ("secret_access_key",
        if prompts c
        then match keyboard w with
             | line :: _ => PStr line
             | [] => secret_access_key
             end
        else secret_access_key);
       ("bucket", bucket); ("region", region)]
  | OptimizeDatabases services codes => [("codes", codes); ("services", services)]
  | _ => optional_parameters c
  end.

(** [d = {}], then [if v: d[k] = v] for each pair in turn. *)
Definition collected (l : list (string * PyVal)) : gmap string PyVal :=
  fold_left (fun d kv => set_if kv.1 kv.2 d) l ∅.


(* ================================================================== *)
(** * Properties *)

(** ** Running a call *)

Lemma requests_snoc_sent w r :
  requests (mkWorld (server w) (keyboard w) (trace w ++ [Sent r])) = requests w ++ [r].
Proof. unfold requests. simpl. rewrite omap_app. reflexivity. Qed.

Lemma requests_snoc_prompted w k s :
  requests (mkWorld (server w) k (trace w ++ [Prompted s])) = requests w.
Proof. unfold requests. simpl. rewrite omap_app. simpl. apply app_nil_r. Qed.

Lemma issued_app {A} (m : Py A) w l :
  requests (snd (m w)) = requests w ++ l -> issued m w = l.
Proof. intros H. unfold issued. rewrite H. apply drop_app_length. Qed.

Lemma events_app {A} (m : Py A) w l :
  trace (snd (m w)) = trace w ++ l -> events m w = l.
Proof. intros H. unfold events. rewrite H. apply drop_app_length. Qed.

Lemma request_run m url ps d w :
  houston.request m url ps d w =
  (match server w (mkRequest m url ps d) with
   | Some response => Return response
   | None => Raise ConnectionError
   end,
   mkWorld (server w) (keyboard w) (trace w ++ [Sent (mkRequest m url ps d)])).
Proof.
  unfold houston.request, bind, log. simpl.
  destruct (server w _); reflexivity.
Qed.

Lemma raise_for_status_world response w :
  snd (houston.raise_for_status_with_json response w) = w.
Proof.
  unfold houston.raise_for_status_with_json.
  destruct (houston.is_2xx _); [reflexivity|].
  destruct (Json.loads _) as [[]|]; try reflexivity.
  destruct (dict_get _ _); reflexivity.
Qed.

Lemma json_world response w : snd (json response w) = w.
Proof. unfold json. destruct (Json.loads _); reflexivity. Qed.


Lemma decode_world response w : snd (decode response w) = w.
Proof.
  unfold decode, bind.
  pose proof (raise_for_status_world response w) as H.
  destruct (houston.raise_for_status_with_json response w) as [[[]|e] w']; simpl in *; subst.
  - apply json_world.
  - reflexivity.
Qed.

(** *** The normal form of a call *)


Lemma bind_request_run {A} m url ps d (k : Response -> Py A) w :
  bind (houston.request m url ps d) k w =
  match server w (mkRequest m url ps d) with
  | Some response => k response (sent (mkRequest m url ps d) w)
  | None => (Raise ConnectionError, sent (mkRequest m url ps d) w)
  end.
Proof.
  unfold bind at 1. rewrite request_run.
  destruct (server w _); reflexivity.
Qed.

Lemma call_run c w :
  call c w =
  match after_prompt c w with
  | None => (Raise EOFError, prompted w)
  | Some (secret, w1) =>
      match server w1 (request_of c secret) with
      | Some response => finish c response (sent (request_of c secret) w1)
      | None => (Raise ConnectionError, sent (request_of c secret) w1)
      end
  end.
Proof.
  destruct c; simpl.
  - apply bind_request_run.
  - apply (bind_request_run GET "/db/s3config" None None).
  - unfold set_s3_config.
    destruct (truthy access_key_id && negb (truthy secret_access_key)) eqn:E.
    + unfold bind at 1. unfold getpass, bind at 1, log. simpl.
      destruct (keyboard w) as [|line rest] eqn:K.
      * unfold prompted. rewrite K. reflexivity.
      * apply (bind_request_run PUT "/db/s3config" None).
    + unfold bind at 1, ret.
      apply (bind_request_run PUT "/db/s3config" None).
  - apply (bind_request_run PUT "/db/s3" _ None).
  - apply bind_request_run.
  - apply bind_request_run.
Qed.

Lemma finish_world c response w : snd (finish c response w) = w.
Proof.
  destruct c; try apply decode_world.
  unfold finish, bind.
  pose proof (raise_for_status_world response w) as H.
  destruct (houston.raise_for_status_with_json response w) as [[[]|e] w']; simpl in *; subst.
  - destruct (String.eqb _ _); [reflexivity | apply json_world].
  - reflexivity.
Qed.

(** The requests a call issues: none when the prompt meets the end of the
    input, one otherwise. *)
Lemma call_issued c w :
  issued (call c) w =
  match after_prompt c w with
  | None => []
  | Some (secret, _) => [request_of c secret]
  end.
Proof.
  apply issued_app. rewrite call_run.
  destruct (after_prompt c w) as [[secret w1]|] eqn:E.
  - assert (requests w1 = requests w) as Hw.
    { destruct c; simpl in E; try (injection E as _ <-; reflexivity).
      destruct (truthy access_key_id && negb (truthy secret_access_key)).
      - destruct (keyboard w); [discriminate|]. injection E as _ <-.
        apply requests_snoc_prompted.
      - injection E as _ <-. reflexivity. }
    destruct (server w1 _); [rewrite finish_world | simpl];
      unfold sent; rewrite requests_snoc_sent; congruence.
  - simpl. unfold prompted. rewrite requests_snoc_prompted. symmetry. apply app_nil_r.
Qed.

(** *** Payloads built with [set_if] *)

Lemma lookup_set_if k v (d : gmap string PyVal) k' :
  set_if k v d !! k' = if truthy v && String.eqb k k' then Some v else d !! k'.
Proof.
  unfold set_if. destruct (truthy v); simpl; [|reflexivity].
  destruct (String.eqb_spec k k') as [->|Hne].
  - apply lookup_insert_eq.
  - apply lookup_insert_ne. exact Hne.
Qed.


Lemma all_truthy_empty : all_truthy ∅.
Proof. intros k v H. rewrite lookup_empty in H. discriminate. Qed.

Lemma all_truthy_set_if k v d : all_truthy d -> all_truthy (set_if k v d).
Proof.
  intros Hd k' v' H. rewrite lookup_set_if in H.
  destruct (truthy v) eqn:Ev; simpl in H; [|eauto].
  destruct (String.eqb k k'); [|eauto].
  injection H as <-. exact Ev.
Qed.

Lemma all_truthy_request c secret : all_truthy (payload (request_of c secret)).
Proof.
  destruct c; unfold payload; simpl;
    repeat apply all_truthy_set_if; apply all_truthy_empty.
Qed.

Ltac lookup_payload :=
  unfold payload; simpl; rewrite ?lookup_set_if; simpl;
  rewrite ?andb_false_r, ?andb_true_r, ?lookup_empty.

(** ** The claims on quantrocket/db.py *)

(** C7.  Each db operation issues its request with the method and path of
    the REST convention: [list_databases] GET /db/databases,
    [get_s3_config] GET and [set_s3_config] PUT on /db/s3config,
    [s3_push_databases] PUT and [s3_pull_databases] GET on /db/s3,
    [optimize_databases] POST /db/optimizations.  A call issues exactly one
    request, except [set_s3_config] when its prompt meets the end of the
    input, which issues none. *)
Theorem db_operations_methods_and_paths :
  (forall services codes detail expand w,
      route <$> issued (list_databases services codes detail expand) w
      = [(GET, "/db/databases")]) /\
  (forall w, route <$> issued get_s3_config w = [(GET, "/db/s3config")]) /\
  (forall access_key_id secret_access_key bucket region w,
      let m := set_s3_config access_key_id secret_access_key bucket region in
      route <$> issued m w = [(PUT, "/db/s3config")] \/
      (issued m w = [] /\ fst (m w) = Raise EOFError /\ keyboard w = [])) /\
  (forall services codes w,
      route <$> issued (s3_push_databases services codes) w = [(PUT, "/db/s3")]) /\
  (forall services codes force w,
      route <$> issued (s3_pull_databases services codes force) w = [(GET, "/db/s3")]) /\
  (forall services codes w,
      route <$> issued (optimize_databases services codes) w
      = [(POST, "/db/optimizations")]) /\
  (forall c w r, r ∈ issued (call c) w -> route r = endpoint c).
Proof.
  repeat split.
  - intros services codes detail expand w.
    change (list_databases services codes detail expand)
      with (call (ListDatabases services codes detail expand)).
    rewrite call_issued. reflexivity.
  - intros w. change get_s3_config with (call GetS3Config).
    rewrite call_issued. reflexivity.
  - intros ak sk b rg w m.
    pose proof (call_issued (SetS3Config ak sk b rg) w) as Hi.
    pose proof (call_run (SetS3Config ak sk b rg) w) as Hr.
    change (call (SetS3Config ak sk b rg)) with m in Hi, Hr.
    destruct (after_prompt (SetS3Config ak sk b rg) w) as [[secret w1]|] eqn:E.
    + left. rewrite Hi. reflexivity.
    + right. rewrite Hi, Hr. repeat split.
      simpl in E. destruct (truthy ak && negb (truthy sk)); [|discriminate].
      destruct (keyboard w); [reflexivity | discriminate].
  - intros services codes w.
    change (s3_push_databases services codes)
      with (call (S3PushDatabases services codes)).
    rewrite call_issued. reflexivity.
  - intros services codes force w.
    change (s3_pull_databases services codes force)
      with (call (S3PullDatabases services codes force)).
    rewrite call_issued. reflexivity.
  - intros services codes w.
    change (optimize_databases services codes)
      with (call (OptimizeDatabases services codes)).
    rewrite call_issued. reflexivity.
  - intros c w r Hr. rewrite call_issued in Hr.
    destruct (after_prompt c w) as [[secret w1]|].
    + apply list_elem_of_singleton in Hr as ->. destruct c; reflexivity.
    + apply elem_of_nil in Hr. destruct Hr.
Qed.

(** C5, as stated, fails on the code: [set_s3_config] called with an access
    key and no secret asks for the secret at the terminal and sends what is
    typed, so the payload holds [secret_access_key] though the caller
    omitted that parameter. *)
Lemma omitted_secret_is_prompted_and_sent :
  let w := mkWorld (fun _ => None) ["s3cr3t"] [] in
  exists r,
    issued (set_s3_config (PStr "AKIA") PNone PNone PNone) w = [r] /\
    payload r !! "secret_access_key" = Some (PStr "s3cr3t").
Proof.
  eexists. split.
  - change (set_s3_config (PStr "AKIA") PNone PNone PNone)
      with (call (SetS3Config (PStr "AKIA") PNone PNone PNone)).
    rewrite call_issued. reflexivity.
  - lookup_payload. reflexivity.
Qed.

(** C5, amended.  In every request a db operation issues, an optional
    parameter the caller omitted or passed falsy is absent from the payload,
    and no payload value is falsy (none is null) -- except that the
    [secret_access_key] of [set_s3_config], when falsy while [access_key_id]
    is not, is replaced by the line typed at the prompt and sent when that
    line is not empty. *)
Theorem falsy_optional_parameters_are_omitted c w r :
  r ∈ issued (call c) w ->
  (forall k v, (k, v) ∈ optional_parameters c -> truthy v = false ->
     prompts c && String.eqb k "secret_access_key" = false ->
     payload r !! k = None) /\
  (forall k v, payload r !! k = Some v -> truthy v = true /\ v <> PNone) /\
  (prompts c = true -> forall line, head (keyboard w) = Some line ->
     payload r !! "secret_access_key"
     = if String.eqb line EmptyString then None else Some (PStr line)).
Proof.
  intros Hr. rewrite call_issued in Hr.
  destruct (after_prompt c w) as [[secret w1]|] eqn:E;
    [apply list_elem_of_singleton in Hr as -> | apply elem_of_nil in Hr; destruct Hr].
  split; [|split].
  - intros k v Hin Hv Hk.
    destruct c; simpl in Hin, Hk, E;
      repeat (apply elem_of_cons in Hin as [Hin|Hin];
              [injection Hin as -> ->; lookup_payload; rewrite ?Hv; try reflexivity|]);
      try (apply elem_of_nil in Hin; destruct Hin).
    (* the secret of set_s3_config, when no prompt is due *)
    rewrite andb_true_r in Hk. rewrite Hk in E. injection E as <- _.
    rewrite Hv. reflexivity.
  - intros k v H. pose proof (all_truthy_request c secret k v H) as Ht.
    split; [exact Ht|]. intros ->. discriminate.
  - intros Hp line Hl. destruct c; try discriminate. simpl in E, Hp.
    rewrite Hp in E. destruct (keyboard w) as [|l rest]; [discriminate|].
    injection E as <- _. injection Hl as ->.
    lookup_payload.
    destruct (String.eqb line EmptyString); reflexivity.
Qed.

Lemma falsy_optional_parameters_are_omitted_witness :
  let r := mkRequest GET "/db/databases"
             (Some (<["expand" := PBool true]>
                      (<["codes" := PList [PStr "usstock-1d"]]> ∅))) None in
  payload r !! "detail" = None /\ payload r !! "services" = None.
Proof.
  intros r.
  pose (c := ListDatabases PNone (PList [PStr "usstock-1d"]) (PBool false) (PBool true)).
  pose (w := mkWorld (fun _ => None) [] []).
  assert (r ∈ issued (call c) w) as Hr by (vm_compute; apply list_elem_of_here).
  split.
  - refine (proj1 (falsy_optional_parameters_are_omitted c w r Hr)
                  "detail" (PBool false) _ _ _).
    + apply list_elem_of_further, list_elem_of_further, list_elem_of_here.
    + reflexivity.
    + reflexivity.
  - refine (proj1 (falsy_optional_parameters_are_omitted c w r Hr)
                  "services" PNone _ _ _).
    + apply list_elem_of_here.
    + reflexivity.
    + reflexivity.
Defined.

(** *** Outcomes when the service answers *)

Lemma after_prompt_answered c w :
  (prompts c = true -> keyboard w <> []) ->
  exists secret w1, after_prompt c w = Some (secret, w1) /\ server w1 = server w.
Proof.
  intros Hk. destruct c; simpl; try (eexists _, _; split; reflexivity).
  simpl in Hk. destruct (truthy access_key_id && negb (truthy secret_access_key)).
  - destruct (keyboard w); [destruct (Hk eq_refl eq_refl)|].
    eexists _, _; split; reflexivity.
  - eexists _, _; split; reflexivity.
Qed.

Lemma call_answered c w resp :
  answers w resp -> (prompts c = true -> keyboard w <> []) ->
  exists w2, fst (call c w) = fst (finish c resp w2).
Proof.
  intros Ha Hk. rewrite call_run.
  destruct (after_prompt_answered c w Hk) as (secret & w1 & -> & Hs).
  rewrite Hs, Ha. eexists. reflexivity.
Qed.

Lemma raise_for_status_ok response w :
  houston.is_2xx (status_code response) = true ->
  houston.raise_for_status_with_json response w = (Return tt, w).
Proof. intros H. unfold houston.raise_for_status_with_json. rewrite H. reflexivity. Qed.

Lemma loads_empty : Json.loads EmptyString = None.
Proof. reflexivity. Qed.

Lemma finish_decoded c response v w :
  houston.is_2xx (status_code response) = true ->
  Json.loads (content response) = Some v ->
  fst (finish c response w) = Return v.
Proof.
  intros Hs Hv.
  assert (fst (json response w) = Return v) as Hj.
  { unfold json. rewrite Hv. reflexivity. }
  destruct c; simpl; unfold decode, bind; rewrite raise_for_status_ok by exact Hs;
    try exact Hj.
  destruct (String.eqb_spec (content response) EmptyString) as [He|_]; [|exact Hj].
  rewrite He, loads_empty in Hv. discriminate.
Qed.

Lemma finish_error c response kvs message w :
  houston.is_2xx (status_code response) = false ->
  Json.loads (content response) = Some (JObj kvs) ->
  dict_get "error" kvs = Some message ->
  fst (finish c response w) = Raise (RemoteServiceError (status_code response) message).
Proof.
  intros Hs Hv He.
  assert (houston.raise_for_status_with_json response w
          = (Raise (RemoteServiceError (status_code response) message), w)) as Hr.
  { unfold houston.raise_for_status_with_json. rewrite Hs, Hv, He. reflexivity. }
  destruct c; simpl; unfold decode, bind; rewrite Hr; reflexivity.
Qed.

(** C3, as stated, fails on the code: [s3_push_databases] and
    [list_databases] hand the empty body of a 204 response to
    [response.json()], which raises. *)
Lemma no_content_raises_outside_get_s3_config :
  let w := mkWorld (fun _ => Some (mkResponse 204 EmptyString)) [] [] in
  fst (s3_push_databases PNone PNone w) = Raise JSONDecodeError /\
  fst (list_databases PNone PNone (PBool false) (PBool false) w) = Raise JSONDecodeError.
Proof. split; reflexivity. Qed.

(** C3, amended.  When the service answers with a 2xx status (204
    included): [get_s3_config], the operation that guards against it,
    decodes an empty body to an empty mapping and raises nothing; and every
    db operation returns the decoded document when the body is one. *)
Theorem no_content_decodes_to_empty_mapping_in_get_s3_config w resp :
  answers w resp ->
  houston.is_2xx (status_code resp) = true ->
  (content resp = EmptyString -> fst (get_s3_config w) = Return (JObj [])) /\
  (forall c v, (prompts c = true -> keyboard w <> []) ->
               Json.loads (content resp) = Some v -> fst (call c w) = Return v).
Proof.
  intros Ha Hs. split.
  - intros He. change get_s3_config with (call GetS3Config).
    rewrite call_run. simpl. rewrite Ha. unfold bind.
    rewrite raise_for_status_ok by exact Hs. rewrite He. reflexivity.
  - intros c v Hk Hv.
    destruct (call_answered c w resp Ha Hk) as [w2 ->].
    apply finish_decoded; assumption.
Qed.

Lemma no_content_decodes_to_empty_mapping_in_get_s3_config_witness :
  fst (get_s3_config (mkWorld (fun _ => Some (mkResponse 204 EmptyString)) [] []))
  = Return (JObj []).
Proof.
  refine (proj1 (no_content_decodes_to_empty_mapping_in_get_s3_config
                   (mkWorld (fun _ => Some (mkResponse 204 EmptyString)) [] [])
                   (mkResponse 204 EmptyString) _ _) _).
  - intros r. reflexivity.
  - reflexivity.
  - reflexivity.
Defined.

(** C4.  When the service answers a db operation with a non-2xx status and
    a JSON object that has an [error] field, the operation raises
    [RemoteServiceError] with that status and the field as message; a 404
    with body [{"error": "not found"}] raises it with message
    ["not found"].  (For [set_s3_config] the prompt, when one is due, must
    have been answered: the request comes after it.) *)
Theorem error_responses_raise_remote_service_error c w resp :
  answers w resp ->
  (prompts c = true -> keyboard w <> []) ->
  houston.is_2xx (status_code resp) = false ->
  (forall kvs message,
      Json.loads (content resp) = Some (JObj kvs) ->
      dict_get "error" kvs = Some message ->
      fst (call c w) = Raise (RemoteServiceError (status_code resp) message)) /\
  (resp = mkResponse 404 not_found_body ->
      fst (call c w) = Raise (RemoteServiceError 404 (JStr "not found"))).
Proof.
  intros Ha Hk Hs.
  destruct (call_answered c w resp Ha Hk) as [w2 ->].
  split.
  - intros kvs message Hv He. apply finish_error with kvs; assumption.
  - intros ->.
    apply (finish_error c (mkResponse 404 not_found_body) [("error", JStr "not found")]);
      reflexivity.
Qed.

Lemma error_responses_raise_remote_service_error_witness :
  fst (list_databases PNone PNone (PBool false) (PBool false)
         (mkWorld (fun _ => Some (mkResponse 404 not_found_body)) [] []))
  = Raise (RemoteServiceError 404 (JStr "not found")).
Proof.
  refine (proj2 (error_responses_raise_remote_service_error
                   (ListDatabases PNone PNone (PBool false) (PBool false))
                   (mkWorld (fun _ => Some (mkResponse 404 not_found_body)) [] [])
                   (mkResponse 404 not_found_body) _ _ _) _).
  - intros r. reflexivity.
  - simpl. discriminate.
  - reflexivity.
  - reflexivity.
Defined.

(** C9.  [set_s3_config] called with a truthy [access_key_id] and a falsy
    [secret_access_key] first prompts for the secret and then sends the
    request: the payload holds [access_key_id], and [secret_access_key]
    exactly when the typed line is not empty.  When nothing can be read the
    call ends in [EOFError] after the prompt and sends nothing. *)
Theorem set_s3_config_prompts_for_secret access_key_id secret_access_key bucket region w :
  truthy access_key_id = true ->
  truthy secret_access_key = false ->
  let m := set_s3_config access_key_id secret_access_key bucket region in
  match keyboard w with
  | line :: rest =>
      exists d,
        events m w = [Prompted "Enter AWS Secret Access Key: ";
                      Sent (mkRequest PUT "/db/s3config" None (Some d))] /\
        keyboard (snd (m w)) = rest /\
        d !! "access_key_id" = Some access_key_id /\
        d !! "secret_access_key"
        = (if String.eqb line EmptyString then None else Some (PStr line))
  | [] => events m w = [Prompted "Enter AWS Secret Access Key: "] /\
          fst (m w) = Raise EOFError
  end.
Proof.
  intros Hak Hsk m.
  pose proof (call_run (SetS3Config access_key_id secret_access_key bucket region) w) as Hr.
  change (call (SetS3Config access_key_id secret_access_key bucket region)) with m in Hr.
  simpl in Hr. rewrite Hak, Hsk in Hr. simpl in Hr.
  destruct (keyboard w) as [|line rest].
  - split; [apply events_app|]; rewrite Hr; simpl; reflexivity.
  - eexists. split; [|split; [|split]].
    + apply events_app. rewrite Hr.
      destruct (server _ _); [rewrite decode_world|]; simpl;
        rewrite <- app_assoc; reflexivity.
    + rewrite Hr. destruct (server _ _); [rewrite decode_world|]; reflexivity.
    + rewrite !lookup_set_if. simpl. rewrite !andb_false_r, Hak. reflexivity.
    + rewrite !lookup_set_if. simpl. rewrite !andb_false_r, andb_true_r.
      destruct (String.eqb line EmptyString); reflexivity.
Qed.

Lemma set_s3_config_prompts_for_secret_witness :
  exists d,
    events (set_s3_config (PStr "AKIA") PNone PNone PNone)
           (mkWorld (fun _ => None) ["s3cr3t"] [])
    = [Prompted "Enter AWS Secret Access Key: ";
       Sent (mkRequest PUT "/db/s3config" None (Some d))] /\
    keyboard (snd (set_s3_config (PStr "AKIA") PNone PNone PNone
                     (mkWorld (fun _ => None) ["s3cr3t"] []))) = [] /\
    d !! "access_key_id" = Some (PStr "AKIA") /\
    d !! "secret_access_key" = Some (PStr "s3cr3t").
Proof.
  exact (set_s3_config_prompts_for_secret (PStr "AKIA") PNone PNone PNone
           (mkWorld (fun _ => None) ["s3cr3t"] []) eq_refl eq_refl).
Defined.

(** ** What a parsed namespace holds *)

Module argparse_facts.
Import argparse.

Section reading.

Context (args : list Argument) (argv : list string) (init : gmap string PyVal).

(** The tokens are tokens of the command line. *)
Definition typed (toks : list string) : Prop := forall t, t ∈ toks -> t ∈ argv.

(** The argument is a positional, or one of its option strings was typed. *)
Definition triggered (a : Argument) : Prop :=
  is_positional a = true \/ exists f, f ∈ option_strings a /\ f ∈ argv.

(** [v] is what some argument stored under [d] stores for tokens typed. *)
Definition written (d : string) (v : PyVal) : Prop :=
  exists a toks,
    a ∈ args /\ arg_dest a = d /\ triggered a /\ typed toks /\ value_of a toks = inr v.

Record inv (st : State) : Prop := mkInv {
  inv_namespace : forall d v,
      namespace st !! d = Some v -> init !! d = Some v \/ written d v;
  inv_slot : forall a got,
      slot st = Filling a got -> a ∈ args /\ triggered a /\ typed got;
  inv_positionals : forall p,
      p ∈ positionals st -> p ∈ args /\ is_positional p = true;
  inv_defaults : forall d, is_Some (init !! d) -> is_Some (namespace st !! d)
}.



Lemma typed_nil : typed [].
Proof. intros t H. apply elem_of_nil in H. destruct H. Qed.

Lemma typed_one t : t ∈ argv -> typed [t].
Proof. intros H t' H'. apply list_elem_of_singleton in H' as ->. exact H. Qed.

Lemma typed_snoc got t : typed got -> t ∈ argv -> typed (got ++ [t]).
Proof.
  intros Hg Ht t' H'. apply elem_of_app in H' as [H'|H']; [auto|].
  apply list_elem_of_singleton in H' as ->. exact Ht.
Qed.

Lemma write_inr a toks st st' :
  write a toks st = inr st' ->
  exists v, value_of a toks = inr v /\
            namespace st' = <[arg_dest a := v]> (namespace st) /\
            slot st' = Idle /\ positionals st' = positionals st.
Proof.
  unfold write. destruct (value_of a toks) as [e|v]; [discriminate|].
  intros [= <-]. exists v. repeat split.
Qed.

Lemma write_inv a toks st st' :
  inv st -> a ∈ args -> triggered a -> typed toks ->
  write a toks st = inr st' -> inv st'.
Proof.
  intros [Hn Hs Hp Hd] Ha Ht Hk Hw.
  destruct (write_inr _ _ _ _ Hw) as (v & Hv & Hns & Hsl & Hpos).
  split; [| | |intros d H; rewrite Hns; apply lookup_insert_is_Some'; auto].
  - intros d v' Hl. rewrite Hns in Hl.
    destruct (decide (arg_dest a = d)) as [<-|Hne].
    + rewrite lookup_insert_eq in Hl. injection Hl as <-.
      right. exists a, toks. auto.
    + rewrite lookup_insert_ne in Hl by exact Hne. auto.
  - intros a' got H. rewrite Hsl in H. discriminate.
  - intros p H. rewrite Hpos in H. auto.
Qed.


Lemma fill_inv a got st :
  inv st -> a ∈ args -> triggered a -> typed got -> inv (fill a got st).
Proof.
  intros [Hn Hs Hp Hd] Ha Ht Hk. split; simpl; auto.
  intros a' got' [= <- <-]. auto.
Qed.

Lemma close_inv st st' : inv st -> close st = inr st' -> inv st'.
Proof.
  intros Hi. unfold close. destruct (slot st) as [|a got] eqn:E.
  - intros [= <-]. exact Hi.
  - destruct (inv_slot _ Hi a got E) as (Ha & Ht & Hk).
    apply write_inv; assumption.
Qed.



Lemma classify_optional tok a :
  classify args tok = Optional a -> a ∈ args /\ tok ∈ option_strings a.
Proof.
  unfold classify.
  destruct (negb (starts_with_dash tok)); [discriminate|].
  destruct (String.eqb tok "-h" || String.eqb tok "--help"); [discriminate|].
  destruct (List.find (has_option_string tok) args) as [a'|] eqn:E.
  - intros [= <-]. apply List.find_some in E as [Hin Hf].
    split; [apply list_elem_of_In; exact Hin|].
    unfold has_option_string in Hf.
    apply existsb_exists in Hf as (f & Hf & Heq).
    apply String.eqb_eq in Heq as ->. apply list_elem_of_In. exact Hf.
  - destruct (String.eqb tok "-"); [discriminate|].
    destruct (is_negative_number tok); [discriminate|].
    destruct (has_space tok); discriminate.
Qed.

Lemma optional_triggered tok a :
  tok ∈ argv -> classify args tok = Optional a -> a ∈ args /\ triggered a.
Proof.
  intros Ht Hc. destruct (classify_optional tok a Hc) as [Ha Hf].
  split; [exact Ha|]. right. exists tok. auto.
Qed.

Lemma extra_inv tok st : inv st -> inv (extra tok st).
Proof. intros [Hn Hs Hp Hd]. split; simpl; auto. Qed.

Lemma step_inv st tok st' :
  inv st -> tok ∈ argv -> step args st tok = inr st' -> inv st'.
Proof.
  intros Hi Ht. unfold step.
  destruct (classify args tok) as [a| | |] eqn:Hc.
  - destruct (optional_triggered tok a Ht Hc) as [Ha Hg].
    destruct (close st) as [e|st1] eqn:Hcl; [discriminate|].
    pose proof (close_inv _ _ Hi Hcl) as Hi1.
    destruct (arg_action a).
    + intros [= <-]. apply fill_inv; auto using typed_nil.
    + apply write_inv; auto using typed_nil.
    + apply write_inv; auto using typed_nil.
  - destruct (slot st) as [|a got] eqn:E.
    + destruct (positionals st) as [|p rest] eqn:Ep.
      { intros [= <-]. apply extra_inv, Hi. }
      assert (p ∈ args /\ is_positional p = true) as [Hp Hpos].
      { apply (inv_positionals _ Hi). rewrite Ep. apply list_elem_of_here. }
      assert (inv (mkState (namespace st) Idle rest (seen st) (extras st))) as Hi'.
      { destruct Hi as [Hn Hs Hps Hd]. split; simpl; auto.
        - discriminate.
        - intros q Hq. apply Hps. rewrite Ep. apply list_elem_of_further. exact Hq. }
      destruct (arg_nargs p).
      * apply write_inv; auto using typed_one. left. exact Hpos.
      * intros [= <-]. apply fill_inv; auto using typed_one. left. exact Hpos.
      * intros [= <-]. apply fill_inv; auto using typed_one. left. exact Hpos.
    + destruct (inv_slot _ Hi a got E) as (Ha & Hg & Hk).
      destruct (arg_nargs a).
      * apply write_inv; auto using typed_one.
      * intros [= <-]. apply fill_inv; auto using typed_snoc.
      * intros [= <-]. apply fill_inv; auto using typed_snoc.
  - destruct (close st); discriminate.
  - destruct (close st) as [e|st1] eqn:Hcl; [discriminate|].
    intros [= <-]. apply extra_inv, (close_inv _ _ Hi Hcl).
Qed.



Lemma run_inv toks : forall st st',
  inv st -> typed toks -> run args st toks = inr st' -> inv st'.
Proof.
  induction toks as [|tok rest IH]; intros st st' Hi Hk; simpl.
  - intros [= <-]. exact Hi.
  - destruct (step args st tok) as [e|st1] eqn:Hs; [discriminate|].
    apply IH.
    + apply (step_inv st tok); auto. apply Hk, list_elem_of_here.
    + intros t Ht. apply Hk, list_elem_of_further, Ht.
Qed.


Lemma leftover_inv ps : forall st st',
  inv st -> (forall p, p ∈ ps -> p ∈ args /\ is_positional p = true) ->
  leftover ps st = inr st' -> inv st'.
Proof.
  induction ps as [|p rest IH]; intros st st' Hi Hps; simpl.
  - intros [= <-]. exact Hi.
  - destruct (Hps p (list_elem_of_here _ _)) as [Hp Hpos].
    destruct (arg_nargs p); try discriminate.
    destruct (write p [] st) as [e|st1] eqn:Hw; [discriminate|].
    apply IH.
    + apply (write_inv p [] st); auto using typed_nil. left. exact Hpos.
    + intros q Hq. apply Hps, list_elem_of_further, Hq.
Qed.


Lemma finish_written st ns :
  inv st -> finish args st = inr ns ->
  forall d v, ns !! d = Some v -> init !! d = Some v \/ written d v.
Proof.
  intros Hi. unfold finish.
  destruct (close st) as [e|st1] eqn:Hc; [discriminate|].
  destruct (leftover (positionals st1) st1) as [e|st2] eqn:Hl; [discriminate|].
  destruct (missing args st2); [discriminate|].
  destruct (extras st2); [|discriminate]. intros [= <-].
  pose proof (close_inv _ _ Hi Hc) as Hi1.
  apply (inv_namespace st2).
  apply (leftover_inv (positionals st1) st1); auto. apply (inv_positionals _ Hi1).
Qed.

Lemma finish_defaults st ns :
  inv st -> finish args st = inr ns ->
  forall d, is_Some (init !! d) -> is_Some (ns !! d).
Proof.
  intros Hi. unfold finish.
  destruct (close st) as [e|st1] eqn:Hc; [discriminate|].
  destruct (leftover (positionals st1) st1) as [e|st2] eqn:Hl; [discriminate|].
  destruct (missing args st2); [discriminate|].
  destruct (extras st2); [|discriminate]. intros [= <-].
  pose proof (close_inv _ _ Hi Hc) as Hi1.
  apply (inv_defaults st2).
  apply (leftover_inv (positionals st1) st1); auto. apply (inv_positionals _ Hi1).
Qed.


End reading.

Lemma start_inv p argv : inv (actions p) argv (initial_namespace p) (start p).
Proof.
  split; simpl.
  - intros d v H. left. exact H.
  - discriminate.
  - intros a Ha. apply list_elem_of_filter in Ha as [Hpos Ha]. auto.
  - auto.
Qed.

(** Whatever the namespace holds under a name is its default, or the value
    an argument of that destination stores for tokens of the command line. *)
Lemma parse_args_written p argv ns :
  parse_args p argv = inr ns ->
  forall d v, ns !! d = Some v ->
              initial_namespace p !! d = Some v \/ written (actions p) argv d v.
Proof.
  unfold parse_args.
  destruct (run (actions p) (start p) argv) as [e|st] eqn:Hr; [discriminate|].
  apply finish_written.
  apply (run_inv _ _ _ argv (start p) st); auto using start_inv.
  intros t Ht. exact Ht.
Qed.

(** A name no argument stores under keeps the default it has. *)
Lemma parse_args_default p argv ns d :
  parse_args p argv = inr ns ->
  (forall a, a ∈ actions p -> arg_dest a <> d) ->
  is_Some (initial_namespace p !! d) ->
  ns !! d = initial_namespace p !! d.
Proof.
  intros H Hd Hs.
  assert (is_Some (ns !! d)) as [v Hv].
  { revert H. unfold parse_args.
    destruct (run (actions p) (start p) argv) as [e|st] eqn:Hr; [discriminate|].
    intros H. apply (finish_defaults (actions p) argv (initial_namespace p) st ns); auto.
    apply (run_inv _ _ _ argv (start p) st); auto using start_inv.
    intros t Ht. exact Ht. }
  rewrite Hv. symmetry.
  destruct (parse_args_written p argv ns H d v Hv) as [Hi|(a & toks & Ha & Hda & _)].
  - exact Hi.
  - destruct (Hd a Ha Hda).
Qed.








End argparse_facts.

(** ** Running the command line *)

Module realtime_facts.
Import argparse realtime_cli realtime argparse_facts.


Lemma issued_request {A} m url ps d (k : Response -> Py A) w :
  (forall r w', snd (k r w') = w') ->
  issued (bind (houston.request m url ps d) k) w = [mkRequest m url ps d].
Proof.
  intros Hk. apply issued_app. rewrite bind_request_run.
  destruct (server w _); [rewrite Hk|]; apply requests_snoc_sent.
Qed.

Lemma issued_then_ret {A B} (m : Py A) (b : B) w :
  issued (m ;;; ret b) w = issued m w.
Proof.
  unfold issued, bind. destruct (m w) as [[a|e] w']; reflexivity.
Qed.

Lemma decoded_world response w : snd (decoded response w) = w.
Proof.
  unfold decoded, bind.
  pose proof (raise_for_status_world response w) as H.
  destruct (houston.raise_for_status_with_json response w) as [[[]|e] w']; simpl in *; subst.
  - destruct (String.eqb _ _); [reflexivity | apply json_world].
  - reflexivity.
Qed.

Lemma kwarg_subcommand name (ns : gmap string PyVal) k :
  k <> "subcommand" -> kwarg (<["subcommand" := PStr name]> ns) k = kwarg ns k.
Proof. intros H. unfold kwarg. rewrite lookup_insert_ne by congruence. reflexivity. Qed.

Lemma kwarg_lookup (ns : gmap string PyVal) k v : ns !! k = Some v -> kwarg ns k = v.
Proof. intros H. unfold kwarg. rewrite H. reflexivity. Qed.

(** A concrete command line is run without spelling its namespace out. *)
Definition parsed (r : Stop + gmap string PyVal) : bool :=
  match r with
  | inr _ => true
  | inl _ => false
  end.

Definition namespace_of (r : Stop + gmap string PyVal) : gmap string PyVal :=
  match r with
  | inr ns => ns
  | inl _ => ∅
  end.

Lemma parsed_namespace r : parsed r = true -> r = inr (namespace_of r).
Proof. destruct r; [discriminate | reflexivity]. Qed.

(** The subparser a first token selects. *)
Lemma parse_subparser (p : Parser) rest :
  p ∈ [create_tick_db_parser; drop_db_parser; collect_parser; cancel_parser; get_parser] ->
  parse (prog p :: rest) =
  match parse_args p rest with
  | inl e => inl e
  | inr ns => inr (<["subcommand" := PStr (prog p)]> ns)
  end.
Proof.
  intros H. repeat (apply elem_of_cons in H as [->|H]); try reflexivity.
  apply elem_of_nil in H. destruct H.
Qed.

Ltac in_list := repeat first [apply list_elem_of_here | apply list_elem_of_further].

Ltac each_argument H :=
  repeat (apply elem_of_cons in H as [->|H]);
  [.. | apply elem_of_nil in H; destruct H].

(** The handler of each modelled subcommand. *)
Lemma parsed_func (p : Parser) rest ns :
  p ∈ [create_tick_db_parser; drop_db_parser; collect_parser; get_parser] ->
  parse_args p rest = inr ns ->
  ns !! "func" = initial_namespace p !! "func".
Proof.
  intros Hp H. apply (parse_args_default p rest ns "func" H).
  - intros a Ha.
    repeat (apply elem_of_cons in Hp as [->|Hp]);
      [.. | apply elem_of_nil in Hp; destruct Hp];
      each_argument Ha; discriminate.
  - repeat (apply elem_of_cons in Hp as [->|Hp]);
      [.. | apply elem_of_nil in Hp; destruct Hp];
      eexists; vm_compute; reflexivity.
Qed.

Lemma main_parsed (p : Parser) rest ns run_handler :
  p ∈ [create_tick_db_parser; drop_db_parser; collect_parser; get_parser] ->
  parse_args p rest = inr ns ->
  (exists func, initial_namespace p !! "func" = Some (PStr func) /\
                handler func = Some run_handler) ->
  main (prog p :: rest) = run_handler (<["subcommand" := PStr (prog p)]> ns).
Proof.
  intros Hp H (func & Hf & Hh). unfold main.
  rewrite parse_subparser, H.
  - rewrite kwarg_subcommand by discriminate.
    rewrite (kwarg_lookup ns "func" (PStr func)).
    + simpl. rewrite Hh. reflexivity.
    + rewrite (parsed_func p rest ns Hp H). exact Hf.
  - repeat (apply elem_of_cons in Hp as [->|Hp]);
      [.. | apply elem_of_nil in Hp; destruct Hp]; in_list.
Qed.



(** C6.  [create-tick-db usa-stk-trades -u usa-stk -f last volume] sends
    one request, whose payload is exactly
    [{"code": "usa-stk-trades", "universes": ["usa-stk"],
      "fields": ["last", "volume"]}], the lists in the order typed. *)
Theorem create_tick_db_round_trip w :
  payload <$> issued (main ["create-tick-db"; "usa-stk-trades";
                            "-u"; "usa-stk"; "-f"; "last"; "volume"]) w
  = [ list_to_map [ ("code", PStr "usa-stk-trades");
                    ("universes", PList [PStr "usa-stk"]);
                    ("fields", PList [PStr "last"; PStr "volume"]) ] ].
Proof.
  assert (exists ns,
             parse_args create_tick_db_parser
               ["usa-stk-trades"; "-u"; "usa-stk"; "-f"; "last"; "volume"] = inr ns /\
             kwarg ns "code" = PStr "usa-stk-trades" /\
             kwarg ns "universes" = PList [PStr "usa-stk"] /\
             kwarg ns "conids" = PNone /\
             kwarg ns "vendor" = PNone /\
             kwarg ns "fields" = PList [PStr "last"; PStr "volume"] /\
             kwarg ns "primary_exchange" = PBool false)
    as (ns & E & H1 & H2 & H3 & H4 & H5 & H6).
  { eexists. split; [apply parsed_namespace; vm_compute; reflexivity|].
    repeat split; vm_compute; reflexivity. }
  change ("create-tick-db") with (prog create_tick_db_parser).
  rewrite (main_parsed create_tick_db_parser _ ns cli_create_tick_db);
    [ | in_list | exact E | eexists; split; reflexivity ].
  unfold cli_create_tick_db. rewrite issued_then_ret.
  unfold create_tick_db, houston.post.
  rewrite issued_request by apply decoded_world.
  rewrite !kwarg_subcommand by discriminate.
  rewrite H1, H2, H3, H4, H5, H6.
  vm_compute. reflexivity.
Qed.





(** *** The [get] subcommand *)






(** *** Conids on the command line *)








End realtime_facts.

(* ================================================================== *)
(** * Further properties of quantrocket/db.py *)

Module db_facts.

Set Warnings "-clear-no-such-hyp".

Lemma lookup_fold_set_if l : forall (d : gmap string PyVal) k v,
  NoDup (l.*1) ->
  fold_left (fun d kv => set_if kv.1 kv.2 d) l d !! k = Some v <->
  ((k, v) ∈ l /\ truthy v = true) \/
  ((forall v', (k, v') ∈ l -> truthy v' = false) /\ d !! k = Some v).
Proof.
  induction l as [|[k0 v0] l IH]; intros d k v Hnd; simpl.
  - split.
    + intros H. right. split; [|exact H].
      intros v' Hin. apply elem_of_nil in Hin. destruct Hin.
    + intros [[H _]|[_ H]]; [apply elem_of_nil in H; destruct H | exact H].
  - apply NoDup_cons in Hnd as [Hk0 Hnd]. simpl in Hk0.
    assert (forall v', (k0, v') ∉ l) as Hfresh.
    { intros v' Hin. apply Hk0, list_elem_of_fmap. exists (k0, v'). auto. }
    rewrite (IH _ k v Hnd), lookup_set_if.
    destruct (String.eqb_spec k0 k) as [<-|Hne].
    + destruct (truthy v0) eqn:Ht; simpl.
      * split.
        -- intros [[Hin _]|[_ Hv]]; [destruct (Hfresh _ Hin)|].
           injection Hv as <-. left. split; [apply list_elem_of_here | exact Ht].
        -- intros [[Hin Hv]|[Hall _]].
           ++ apply elem_of_cons in Hin as [Heq|Hin]; [|destruct (Hfresh _ Hin)].
              injection Heq as ->. right. split; [|reflexivity].
              intros v' Hin. destruct (Hfresh _ Hin).
           ++ rewrite (Hall v0 (list_elem_of_here _ _)) in Ht. discriminate.
      * split.
        -- intros [[Hin _]|[_ Hv]]; [destruct (Hfresh _ Hin)|].
           right. split; [|exact Hv].
           intros v' Hin. apply elem_of_cons in Hin as [Heq|Hin];
             [injection Heq as ->; exact Ht | destruct (Hfresh _ Hin)].
        -- intros [[Hin Hv]|[_ Hd]].
           ++ apply elem_of_cons in Hin as [Heq|Hin]; [|destruct (Hfresh _ Hin)].
              injection Heq as ->. congruence.
           ++ right. split; [|exact Hd].
              intros v' Hin. destruct (Hfresh _ Hin).
    + rewrite andb_false_r. split.
      * intros [[Hin Hv]|[Hall Hd]].
        -- left. split; [apply list_elem_of_further, Hin | exact Hv].
        -- right. split; [|exact Hd].
           intros v' Hin. apply elem_of_cons in Hin as [Heq|Hin]; [|auto].
           injection Heq as Heq _. congruence.
      * intros [[Hin Hv]|[Hall Hd]].
        -- apply elem_of_cons in Hin as [Heq|Hin].
           ++ injection Heq as Heq _. congruence.
           ++ left. auto.
        -- right. split; [|exact Hd].
           intros v' Hin. apply Hall, list_elem_of_further, Hin.
Qed.

Lemma lookup_collected l k v :
  NoDup (l.*1) ->
  collected l !! k = Some v <-> (k, v) ∈ l /\ truthy v = true.
Proof.
  intros Hnd. unfold collected. rewrite lookup_fold_set_if by exact Hnd.
  rewrite lookup_empty. split; [|auto].
  intros [H|[_ H]]; [exact H | discriminate].
Qed.

Lemma issued_request_of c w r :
  r ∈ issued (call c) w ->
  exists secret w1, after_prompt c w = Some (secret, w1) /\ r = request_of c secret.
Proof.
  rewrite call_issued. destruct (after_prompt c w) as [[secret w1]|].
  - intros H. apply list_elem_of_singleton in H. eauto.
  - intros H. apply elem_of_nil in H. destruct H.
Qed.

Ltac nodup_keys :=
  simpl; repeat (apply NoDup_cons; split; [set_unfold; intuition discriminate|]);
  apply NoDup_nil_2.

Lemma payload_collected c w secret w1 :
  after_prompt c w = Some (secret, w1) ->
  payload (request_of c secret) = collected (sent_parameters c w) /\
  NoDup ((sent_parameters c w).*1).
Proof.
  intros E. destruct c; simpl in E.
  - injection E as <- <-. split; [reflexivity | nodup_keys].
  - injection E as <- <-. split; [reflexivity | apply NoDup_nil_2].
  - split; [|nodup_keys].
    unfold sent_parameters, prompts.
    destruct (truthy access_key_id && negb (truthy secret_access_key)).
    + destruct (keyboard w); [discriminate|]. injection E as <- _. reflexivity.
    + injection E as <- _. reflexivity.
  - injection E as <- <-. split; [reflexivity | nodup_keys].
  - injection E as <- <-. split; [reflexivity | nodup_keys].
  - injection E as <- <-. split; [reflexivity | nodup_keys].
Qed.

(** X1.  The payload of the request a db operation sends holds exactly the
    parameters whose value is truthy, each under its own key and with the
    value unchanged: nothing is added, renamed or converted. *)
Theorem payload_is_the_truthy_parameters c w r :
  r ∈ issued (call c) w ->
  forall k v, payload r !! k = Some v <->
              (k, v) ∈ sent_parameters c w /\ truthy v = true.
Proof.
  intros Hr k v.
  destruct (issued_request_of c w r Hr) as (secret & w1 & E & ->).
  destruct (payload_collected c w secret w1 E) as [-> Hnd].
  apply lookup_collected, Hnd.
Qed.

Lemma payload_is_the_truthy_parameters_witness :
  let r := mkRequest GET "/db/s3"
             (Some (<["force" := PBool true]>
                      (<["services" := PList [PStr "history"]]> ∅))) None in
  payload r !! "force" = Some (PBool true).
Proof.
  intros r.
  pose (c := S3PullDatabases (PList [PStr "history"]) PNone (PBool true)).
  pose (w := mkWorld (fun _ => None) [] []).
  assert (r ∈ issued (call c) w) as Hr by (vm_compute; apply list_elem_of_here).
  refine (proj2 (payload_is_the_truthy_parameters c w r Hr "force" (PBool true)) _).
  split; [|reflexivity].
  apply list_elem_of_further, list_elem_of_further, list_elem_of_here.
Defined.

(** X2.  [set_s3_config] sends its payload as the request body and nothing
    in the query string; every other db operation sends no body.  So the
    AWS credentials never travel in a query string. *)
Theorem credentials_travel_in_the_body c w r :
  r ∈ issued (call c) w ->
  match c with
  | SetS3Config _ _ _ _ => params r = None /\ is_Some (data r)
  | _ => data r = None
  end /\
  forall q, params r = Some q ->
            q !! "access_key_id" = None /\ q !! "secret_access_key" = None.
Proof.
  intros Hr. destruct (issued_request_of c w r Hr) as (secret & w1 & _ & ->).
  destruct c; simpl; split;
    try reflexivity; try (split; [reflexivity | eexists; reflexivity]);
    intros q Hq; try discriminate Hq; injection Hq as <-;
    rewrite !lookup_set_if; simpl; rewrite ?andb_false_r, lookup_empty; split; reflexivity.
Qed.

Lemma credentials_travel_in_the_body_witness :
  let r := mkRequest PUT "/db/s3config" None
             (Some (<["secret_access_key" := PStr "s3cr3t"]>
                      (<["access_key_id" := PStr "AKIA"]> ∅))) in
  params r = None /\ is_Some (data r).
Proof.
  intros r.
  pose (c := SetS3Config (PStr "AKIA") (PStr "s3cr3t") PNone PNone).
  pose (w := mkWorld (fun _ => None) [] []).
  assert (r ∈ issued (call c) w) as Hr by (vm_compute; apply list_elem_of_here).
  exact (proj1 (credentials_travel_in_the_body c w r Hr)).
Defined.

(** X3.  A db call reads the terminal only when it is [set_s3_config] with
    an access key and no secret: in every other case no prompt appears, the
    lines waiting at the terminal are left untouched, and the one event of
    the call is its request. *)
Theorem no_prompt_unless_needed c w :
  prompts c = false ->
  keyboard (snd (call c w)) = keyboard w /\
  exists r, events (call c) w = [Sent r].
Proof.
  intros Hp. rewrite call_run.
  assert (exists secret, after_prompt c w = Some (secret, w)) as [secret E].
  { destruct c; simpl in *; try (eexists; reflexivity).
    rewrite Hp. eexists; reflexivity. }
  rewrite E.
  assert (snd (match server w (request_of c secret) with
               | Some response => finish c response (sent (request_of c secret) w)
               | None => (Raise ConnectionError, sent (request_of c secret) w)
               end) = sent (request_of c secret) w) as Hw.
  { destruct (server w _); [apply finish_world | reflexivity]. }
  split.
  - rewrite Hw. reflexivity.
  - exists (request_of c secret).
    assert (trace (snd (call c w)) = trace w ++ [Sent (request_of c secret)]) as Ht.
    { rewrite call_run, E, Hw. reflexivity. }
    apply events_app, Ht.
Qed.

Lemma no_prompt_unless_needed_witness :
  let w := mkWorld (fun _ => None) ["typed ahead"] [] in
  keyboard (snd (set_s3_config (PStr "AKIA") (PStr "s3cr3t") PNone PNone w))
  = ["typed ahead"] /\
  exists r, events (set_s3_config (PStr "AKIA") (PStr "s3cr3t") PNone PNone) w = [Sent r].
Proof.
  intros w.
  exact (no_prompt_unless_needed
           (SetS3Config (PStr "AKIA") (PStr "s3cr3t") PNone PNone) w eq_refl).
Defined.

(** X4.  [_cli_get_or_set_s3_config] reads the configuration when it is
    given no option and writes it otherwise; the write it hands to
    [json_to_cli] never sends an empty payload. *)
Theorem cli_get_or_set_s3_config_never_puts_nothing
        {R : Type} (json_to_cli : Py JSON -> Py R)
        access_key_id secret_access_key bucket region :
  let any := truthy access_key_id || truthy secret_access_key
             || truthy bucket || truthy region in
  let m := if any
           then set_s3_config access_key_id secret_access_key bucket region
           else get_s3_config in
  _cli_get_or_set_s3_config json_to_cli access_key_id secret_access_key bucket region
  = json_to_cli m /\
  forall w r, r ∈ issued m w ->
              if any
              then route r = (PUT, "/db/s3config") /\ payload r <> ∅
              else route r = (GET, "/db/s3config") /\ payload r = ∅.
Proof.
  intros any m. split.
  - unfold _cli_get_or_set_s3_config. fold any. unfold m. destruct any; reflexivity.
  - intros w r Hr. unfold m in Hr. destruct any eqn:Hany.
    + change (set_s3_config access_key_id secret_access_key bucket region)
        with (call (SetS3Config access_key_id secret_access_key bucket region)) in Hr.
      destruct (issued_request_of _ w r Hr) as (secret & w1 & E & Heq).
      assert (forall k v, payload r !! k = Some v <->
                          (k, v) ∈ sent_parameters
                                     (SetS3Config access_key_id secret_access_key
                                                  bucket region) w /\
                          truthy v = true) as Hpay.
      { intros k v. rewrite Heq.
        destruct (payload_collected _ w secret w1 E) as [-> Hnd].
        apply lookup_collected, Hnd. }
      split; [rewrite Heq; reflexivity|].
      assert (exists k v, payload r !! k = Some v) as (k & v & Hkv).
      { unfold any in Hany. simpl in E. unfold sent_parameters, prompts in Hpay.
        destruct (truthy access_key_id) eqn:H1.
        - exists "access_key_id", access_key_id. apply Hpay.
          split; [apply list_elem_of_here | exact H1].
        - simpl in E, Hpay, Hany.
          destruct (truthy secret_access_key) eqn:H2.
          + exists "secret_access_key", secret_access_key. apply Hpay.
            split; [apply list_elem_of_further, list_elem_of_here | exact H2].
          + simpl in Hany. destruct (truthy bucket) eqn:H3.
            * exists "bucket", bucket. apply Hpay.
              split; [do 2 apply list_elem_of_further; apply list_elem_of_here | exact H3].
            * simpl in Hany. exists "region", region. apply Hpay.
              split; [do 3 apply list_elem_of_further; apply list_elem_of_here | exact Hany]. }
      intros Hempty. rewrite Hempty, lookup_empty in Hkv. discriminate.
    + change get_s3_config with (call GetS3Config) in Hr.
      destruct (issued_request_of _ w r Hr) as (secret & w1 & E & ->).
      split; reflexivity.
Qed.

(** X14.  A db call sends one request, or none at all: none exactly when
    [set_s3_config] has to prompt for the secret and the input is at its
    end, in which case [EOFError] is raised.  Whatever the service answers,
    the request is not repeated. *)
Theorem db_call_sends_one_request_or_none c w :
  (length (issued (call c) w) <= 1)%nat /\
  (issued (call c) w = [] <-> prompts c = true /\ keyboard w = []) /\
  (prompts c = true -> keyboard w = [] ->
   call c w = (Raise EOFError, prompted w)).
Proof.
  rewrite call_issued, call_run.
  destruct c; simpl; try (split; [lia | split; [split; [discriminate | intros [H _]; discriminate H] | discriminate]]).
  destruct (truthy access_key_id && negb (truthy secret_access_key)).
  - destruct (keyboard w) as [|line rest]; simpl.
    + split; [lia|]. split; [split; auto | reflexivity].
    + split; [lia|]. split; [split; [discriminate | intros [_ H]; discriminate H]|].
      intros _ H. discriminate H.
  - simpl. split; [lia|]. split; [split; [discriminate | intros [H _]; discriminate H]|].
    intros H. discriminate H.
Qed.

End db_facts.

(* ================================================================== *)
(** * Further properties of the realtime parsers *)

Module parser_facts.
Import argparse realtime_cli argparse_facts realtime_facts.

(** ** The tables are well formed *)







(** ** More invariants of the reading *)

Section more.

Context (args : list Argument) (argv : list string) (init : gmap string PyVal).

Abbreviation inv := (inv args argv init).
Abbreviation triggered := (triggered argv).
Abbreviation typed := (typed argv).








(** *** Positionals *)






End more.

(** ** From the reading to the namespace *)






















(** ** Once an option has its value *)

Section settle.

Context (args : list Argument) (argv : list string) (init : gmap string PyVal).
Context (d : string) (v : PyVal).
Hypothesis positionals_elsewhere :
  forall p, p ∈ args -> is_positional p = true -> arg_dest p <> d.










End settle.







(** ** A list option in front of a required positional *)








(** ** What the handlers receive *)



End parser_facts.
